(** * finance_analysis.py: the transformation pipeline of the finance dashboard

    A shallow embedding of [load_data], [monthly_trends],
    [category_breakdown], of the numeric content computed by [save_charts]
    and [write_summary] and of [main], together with the properties the
    specification states about them.

    Conventions of the embedding.
    - The pipeline is embedded twice.  In the first embedding an amount is
      an exact fixed-point number, an integer count of ten-thousandths of the
      currency unit ([dollars 1 = 10000]), and sums are exact: it settles
      which rows are counted where, the shape and the order of the results.
      Module [F64] has the aggregation again over binary64, where every
      addition rounds: it settles what depends on the rounding of the sums.
    - A missing cell ([NaN] for numbers and text, [NaT] for a timestamp) is
      [NaN] in a raw cell and [None] in a typed field; in [F64] a missing
      amount is the float [nan].
    - The data frame handed over by [pd.read_csv] is the input of
      [load_data]; reading and tokenising the file is outside the model, and
      so are the drawing of the charts and the writing of the files.
    - A [DataFrame]/[Series] produced by the aggregation is an ordered list
      of rows, as the order of the rows is part of what the code computes. *)

From Stdlib Require Import ZArith List Bool Ascii String Lia Permutation Sorted.
From Stdlib Require Import PrimFloat.
From stdpp Require Import gmap strings sorting.
Import ListNotations.

Local Open Scope string_scope.
Local Open Scope list_scope.
Local Open Scope Z_scope.

(* Decimal literals stand for the nearest binary64 number. *)
Local Set Warnings "-inexact-float".

(** ** Cells, timestamps and the raw table *)

(** A cell of the frame returned by [pd.read_csv]. *)
Inductive cell : Type :=
  | Text (s : string)
  | Num (z : Z)
  | NaN.

#[global] Instance cell_eq_dec : EqDecision cell.
Proof. solve_decision. Defined.

(** A timestamp, reduced to its calendar date: the time of day plays no part
    in the pipeline, which only uses the month of a timestamp. *)
Record Date : Type := mkDate { year : Z; mon : Z; day : Z }.

#[global] Instance Date_eq_dec : EqDecision Date.
Proof. solve_decision. Defined.

(** [.dt.to_period("M").dt.to_timestamp()]: the first day of the month. *)
Definition to_month (d : Date) : Date := mkDate (year d) (mon d) 1.

(** The frame read from the CSV file: its header and its rows of cells. *)
Record RawFrame : Type := mkRaw { raw_columns : list string; raw_rows : list (list cell) }.

(** A row of the validated table: the columns the pipeline reads
    ([date], [amount], [category]), [description], and the two derived
    columns [month] and [type].  Other columns of the file are carried along
    by the code but never read, and are left out. *)
Record Row : Type := mkRow {
  date : option Date;
  description : cell;
  amount : option Z;
  category : cell;
  month : option Date;
  type : string
}.

(** What [load_data] can raise. *)
Inductive LoadError : Type :=
  | MissingColumns (missing : gset string)   (* ValueError("CSV missing columns: ...") *)
  | AmbiguousColumn (name : string)          (* two columns with one lower-case name *)
  | DateParseError (c : cell)                (* pd.to_datetime raises *)
  | AmountTypeError (c : cell).              (* [>=] between text and a number *)

(** ** Lower-casing of column names *)

(** [str.lower] on the letters A-Z.  Bytes outside ASCII are left as they are:
    no such byte lower-cases to a letter of a required column name, so
    membership of a required name is decided as in Python. *)
Definition lower_ascii (c : ascii) : ascii :=
  let n := nat_of_ascii c in
  if ((65 <=? n)%nat && (n <=? 90)%nat)%bool then ascii_of_nat (n + 32) else c.

Fixpoint lower (s : string) : string :=
  match s with
  | EmptyString => EmptyString
  | String c s' => String (lower_ascii c) (lower s')
  end.

Definition required : gset string :=
  {[ "date"; "description"; "amount"; "category" ]}.

(** ** The loader *)

(** Positions of the columns called [name]. *)
Fixpoint positions_from (i : nat) (name : string) (cols : list string) : list nat :=
  match cols with
  | [] => []
  | c :: cols' =>
      if String.eqb c name then i :: positions_from (S i) name cols'
      else positions_from (S i) name cols'
  end.

(** [df[name]] where the code needs a one-dimensional column: with two
    columns of that name the selection is a frame.  [pd.to_datetime] refuses
    a frame with duplicate column names before it looks at a cell. *)
Definition column_position (name : string) (cols : list string) : LoadError + nat :=
  match positions_from 0 name cols with
  | [i] => inr i
  | _ => inl (AmbiguousColumn name)
  end.

(** [load_data] never reads [df["description"]] nor [df["category"]]: the
    first column of that name stands for it.  (A second [category] column
    does not stop the load; it stops the group-by of [category_breakdown],
    see [main].) *)
Definition first_position (name : string) (cols : list string) : nat :=
  hd 0%nat (positions_from 0 name cols).

Definition get_cell (i : nat) (r : list cell) : cell := nth i r NaN.

(** [df["amount"] >= 0] and [df["amount"] < 0]: comparisons with [NaN] are
    false. *)
Definition ge0 (a : option Z) : bool :=
  match a with Some z => 0 <=? z | None => false end.

Definition lt0 (a : option Z) : bool :=
  match a with Some z => z <? 0 | None => false end.

(** [np.where(df["amount"] >= 0, "income", "expense")]. *)
Definition type_of (a : option Z) : string :=
  if ge0 a then "income" else "expense".

(** An operation on a whole column, cell by cell from the first row on: the
    first cell it cannot handle raises. *)
Fixpoint load_column {A : Type} (conv : cell -> LoadError + A) (cs : list cell)
  : LoadError + list A :=
  match cs with
  | [] => inr []
  | c :: cs' =>
      match conv c with
      | inl e => inl e
      | inr a =>
          match load_column conv cs' with
          | inl e => inl e
          | inr l => inr (a :: l)
          end
      end
  end.

(** The numeric [amount] column: a text cell makes the comparison with 0
    raise. *)
Definition to_amount (c : cell) : LoadError + option Z :=
  match c with
  | Num z => inr (Some z)
  | NaN => inr None
  | Text _ => inl (AmountTypeError c)
  end.

(** Line 20.  The comparison runs over every column called [amount] and
    raises on text; with more than one such column its result has two
    dimensions and the assignment to [df["type"]] raises. *)
Definition load_amounts (cols : list string) (rs : list (list cell))
  : LoadError + list (option Z) :=
  match positions_from 0 "amount" cols with
  | [i] => load_column to_amount (get_cell i <$> rs)
  | ps =>
      match load_column to_amount (mjoin ((fun i => get_cell i <$> rs) <$> ps)) with
      | inl e => inl e
      | inr _ => inl (AmbiguousColumn "amount")
      end
  end.

(** The row of the table made of a row of the file, its timestamp and its
    amount: lines 19 and 20 derive [month] and [type]. *)
Definition make_row (idesc icat : nat) (r : list cell) (da : option Date * option Z) : Row :=
  {| date := da.1;
     description := get_cell idesc r;
     amount := da.2;
     category := get_cell icat r;
     month := to_month <$> da.1;
     type := type_of da.2 |}.

Section Loader.

(** pandas' parser of a non-missing date cell, taken as a parameter;
    [None] when it raises. *)
Variable parse_date : cell -> option Date.

Definition to_datetime (c : cell) : LoadError + option Date :=
  match c with
  | NaN => inr None
  | _ => match parse_date c with
         | Some d => inr (Some d)
         | None => inl (DateParseError c)
         end
  end.

(** Line 18 converts the whole [date] column before line 20 looks at any
    amount. *)
Definition load_data (df : RawFrame) : LoadError + list Row :=
  let missing := required ∖ list_to_set (lower <$> raw_columns df) in
  if decide (missing = ∅) then
    let cols := lower <$> raw_columns df in
    match column_position "date" cols with
    | inl e => inl e
    | inr idate =>
        match load_column to_datetime (get_cell idate <$> raw_rows df) with
        | inl e => inl e
        | inr dates =>
            match load_amounts cols (raw_rows df) with
            | inl e => inl e
            | inr amounts =>
                inr (zip_with (make_row (first_position "description" cols)
                                        (first_position "category" cols))
                       (raw_rows df) (zip dates amounts))
            end
        end
    end
  else inl (MissingColumns missing).

End Loader.

(** ** Series, frames and the library operations the code calls *)

(** A [Series]: index labels with their values, in order. *)
Abbreviation Series L := (list (L * Z)) (only parsing).

(** A [DataFrame] indexed by month: its column names and, for every index
    label, one value per column. *)
Record Frame : Type := mkFrame { columns : list string; rows : list (Date * list Z) }.

Definition zsum (l : list Z) : Z := foldr Z.add 0 l.

(** The library's sort of rows by a key.  The code passes no [kind], and the
    library promises of its default sort that the result is ordered and has
    the rows it was given, not where rows with equal keys go.  The model
    sorts by insertion, as numpy does on short arrays; no property below
    that is stated of the program depends on the place it gives to rows with
    equal keys. *)
Section Sort.
Context {A K : Type} (key : A -> K) (leb : K -> K -> bool).

Fixpoint insert_sorted (x : A) (l : list A) : list A :=
  match l with
  | [] => [x]
  | y :: l' => if leb (key x) (key y) then x :: l else y :: insert_sorted x l'
  end.

Definition stable_sort (l : list A) : list A := foldr insert_sorted [] l.

(** The order of two rows by their keys. *)
Definition key_le (a b : A) : Prop := leb (key a) (key b) = true.
End Sort.

(** Chronological order of timestamps. *)
Definition date_leb (a b : Date) : bool :=
  (year a <? year b)
  || ((year a =? year b)
      && ((mon a <? mon b) || ((mon a =? mon b) && (day a <=? day b)))).

(** Order of the group keys ([month], [type]). *)
Definition month_type_leb (a b : Date * string) : bool :=
  if decide (a.1 = b.1) then String.leb a.2 b.2 else date_leb a.1 b.1.

(** Order of category labels: numbers before text, as pandas sorts the
    labels of a column of mixed cells. *)
Definition cell_leb (a b : cell) : bool :=
  match a, b with
  | Num x, Num y => x <=? y
  | Num _, _ => true
  | Text _, Num _ => false
  | Text s, Text t => String.leb s t
  | Text _, NaN => true
  | NaN, NaN => true
  | NaN, _ => false
  end.

(** [df.groupby(key)["amount"].sum()]: one entry per distinct key, in the
    order of the keys; rows whose key is missing are dropped ([dropna]),
    missing amounts are skipped by the sum. *)
Section GroupBy.
Context {K : Type} `{EqDecision K} (leb : K -> K -> bool) (key : Row -> option K).

Definition group_keys (df : list Row) : list K :=
  stable_sort id leb (remove_dups (omap key df)).

Definition group_sum (df : list Row) (k : K) : Z :=
  zsum (omap amount (filter (fun r => key r = Some k) df)).

Definition groupby_sum (df : list Row) : Series K :=
  (fun k => (k, group_sum df k)) <$> group_keys df.
End GroupBy.

Fixpoint assoc {K : Type} `{EqDecision K} (k : K) (s : Series K) : option Z :=
  match s with
  | [] => None
  | (k', v) :: s' => if decide (k' = k) then Some v else assoc k s'
  end.

(** [.unstack(fill_value=fill)] of a series indexed by (month, type): the
    months become the index, the types the columns, absent pairs [fill]. *)
Definition unstack (fill : Z) (s : Series (Date * string)) : Frame :=
  let idx := stable_sort id date_leb (remove_dups ((fun e => e.1.1) <$> s)) in
  let cols := stable_sort id String.leb (remove_dups ((fun e => e.1.2) <$> s)) in
  mkFrame cols
    ((fun m => (m, (fun t => default fill (assoc (m, t) s)) <$> cols)) <$> idx).

Fixpoint index_of (name : string) (cols : list string) : option nat :=
  match cols with
  | [] => None
  | c :: cols' => if decide (c = name) then Some 0%nat else S <$> index_of name cols'
  end.

(** [frame[name]]: [None] stands for the [KeyError]. *)
Definition getitem (name : string) (f : Frame) : option (list Z) :=
  i ← index_of name (columns f);
  Some ((fun r => nth i r.2 0) <$> rows f).

(** [frame[name] = vals]: replaces the column, or appends a new one; [None]
    stands for the [ValueError] on a length mismatch. *)
Definition setitem (name : string) (vals : list Z) (f : Frame) : option Frame :=
  if decide (length vals = length (rows f)) then
    match index_of name (columns f) with
    | Some i =>
        Some (mkFrame (columns f)
                (zip_with (fun r v => (r.1, <[i:=v]> (r.2))) (rows f) vals))
    | None =>
        Some (mkFrame (columns f ++ [name])
                (zip_with (fun r v => (r.1, r.2 ++ [v])) (rows f) vals))
    end
  else None.

(** [frame[name] = c] for a scalar [c]. *)
Definition setitem_scalar (name : string) (c : Z) (f : Frame) : option Frame :=
  setitem name (replicate (length (rows f)) c) f.

Definition sort_index (f : Frame) : Frame :=
  mkFrame (columns f) (stable_sort fst date_leb (rows f)).

(** [Series.sort_values()]. *)
Definition sort_values {L : Type} (s : Series L) : Series L :=
  stable_sort snd Z.leb s.

(** [Series.sort_values(ascending=False)]: pandas reverses the values, sorts
    them ascending and reverses the result. *)
Definition sort_values_desc {L : Type} (s : Series L) : Series L :=
  reverse (stable_sort snd Z.leb (reverse s)).

Definition series_abs {L : Type} (s : Series L) : Series L :=
  (fun e => (e.1, Z.abs e.2)) <$> s.

Definition series_mul {L : Type} (s : Series L) (c : Z) : Series L :=
  (fun e => (e.1, e.2 * c)) <$> s.

Definition head {L : Type} (n : nat) (s : Series L) : Series L := take n s.

Fixpoint cumsum_from (acc : Z) (l : list Z) : list Z :=
  match l with
  | [] => []
  | x :: l' => (acc + x) :: cumsum_from (acc + x) l'
  end.

Definition cumsum (l : list Z) : list Z := cumsum_from 0 l.

(** Amounts count ten-thousandths; [dollars n] is [n] units of currency. *)
Definition dollars (n : Z) : Z := n * 10000.

(** [round(2)]: to the nearest hundredth of a unit, halves to the even
    neighbour. *)
Definition round2 (x : Z) : Z :=
  let q := x / 100 in
  let r := x mod 100 in
  if r <? 50 then q * 100
  else if 50 <? r then (q + 1) * 100
  else if Z.even q then q * 100 else (q + 1) * 100.

Definition series_round2 {L : Type} (s : Series L) : Series L :=
  (fun e => (e.1, round2 e.2)) <$> s.

(** ** The aggregator *)

Definition month_type_key (r : Row) : option (Date * string) :=
  m ← month r; Some (m, type r).

Definition monthly_trends (df : list Row) : option Frame :=
  let monthly := unstack 0 (groupby_sum month_type_leb month_type_key df) in
  monthly ← (if decide ("income" ∈ columns monthly) then Some monthly
             else setitem_scalar "income" 0 monthly);
  monthly ← (if decide ("expense" ∈ columns monthly) then Some monthly
             else setitem_scalar "expense" 0 monthly);
  let monthly := sort_index monthly in
  income ← getitem "income" monthly;
  expense ← getitem "expense" monthly;
  setitem "net" (zip_with Z.add income expense) monthly.

Definition category_key (r : Row) : option cell :=
  match category r with
  | NaN => None
  | c => Some c
  end.

Definition category_breakdown (df : list Row) : Series cell :=
  let exp := filter (fun r => lt0 (amount r)) df in
  sort_values (groupby_sum cell_leb category_key exp).

(** ** The reporter *)

(** The three series [save_charts] plots. *)
Record Charts : Type := mkCharts {
  trend : list Date * (list Z * list Z * list Z);
  top10 : Series cell;
  cum_net : list Z
}.

Definition save_charts (monthly : Frame) (by_cat : Series cell) : option Charts :=
  income ← getitem "income" monthly;
  expense ← getitem "expense" monthly;
  net ← getitem "net" monthly;
  let top10 := series_mul (head 10 (sort_values_desc (series_abs by_cat))) (-1) in
  let cum_net := cumsum net in
  Some (mkCharts (fst <$> rows monthly, (income, expense, net)) top10 cum_net).

(** The numbers [write_summary] formats into the report. *)
Record Summary : Type := mkSummary {
  total_income : Z;
  total_expense : Z;
  total_net : Z;
  top5 : Series cell
}.

Definition write_summary (monthly : Frame) (by_cat : Series cell) : option Summary :=
  income ← getitem "income" monthly;
  expense ← getitem "expense" monthly;
  net ← getitem "net" monthly;
  let top5 :=
    series_round2 (series_mul (head 5 (sort_values_desc (series_abs by_cat))) (-1)) in
  Some (mkSummary (zsum income) (zsum expense) (zsum net) top5).

(** What a run computes. *)
Record Output : Type := mkOutput {
  out_monthly : Frame;
  out_by_cat : Series cell;
  out_charts : Charts;
  out_summary : Summary
}.

(** [groupby] raises when a key names more than one column of the frame.
    [load_data] writes [month] and [type] into every column of that name, or
    adds the column when there is none. *)
Definition grouper_ok (name : string) (cols : list string) : bool :=
  bool_decide (length (positions_from 0 name cols) <= 1)%nat.

Inductive RunError : Type :=
  | LoadFailed (e : LoadError)               (* raised by load_data *)
  | GrouperError (name : string)             (* "Grouper for name not 1-dimensional" *)
  | KeyOrLengthError.                        (* a column lookup or assignment fails *)

Definition main (parse_date : cell -> option Date) (csv : RawFrame) : RunError + Output :=
  match load_data parse_date csv with
  | inl e => inl (LoadFailed e)
  | inr df =>
      let cols := lower <$> raw_columns csv in
      if negb (grouper_ok "month" cols) then inl (GrouperError "month")
      else if negb (grouper_ok "type" cols) then inl (GrouperError "type")
      else
        match monthly_trends df with
        | None => inl KeyOrLengthError
        | Some monthly =>
            if negb (grouper_ok "category" cols) then inl (GrouperError "category")
            else
              let by_cat := category_breakdown df in
              match save_charts monthly by_cat, write_summary monthly by_cat with
              | Some charts, Some summary => inr (mkOutput monthly by_cat charts summary)
              | _, _ => inl KeyOrLengthError
              end
        end
  end.

(** ** The aggregation in binary floating point *)

(** pandas holds the [amount] column as float64.  The definitions above
    compute with exact decimals, which decides what rows are counted where;
    module [F64] has the aggregator and the sums of the reporter again over
    IEEE binary64 (the kernel's floats), where every addition rounds.  It
    decides the statements whose truth depends on the rounding. *)
Module F64.

(** The columns of the validated table that the aggregation reads.  A
    missing amount is the float [nan]. *)
Record Row : Type := mkRow {
  month : option Date;
  type : string;
  amount : float;
  category : cell
}.

(** [df["amount"] >= 0] and [df["amount"] < 0]; false on [nan]. *)
Definition ge0 (a : float) : bool := PrimFloat.leb 0%float a.

Definition lt0 (a : float) : bool := PrimFloat.ltb a 0%float.

Definition type_of (a : float) : string :=
  if ge0 a then "income" else "expense".

Definition notna (a : float) : bool := negb (PrimFloat.is_nan a).

(** A sum that skips missing values adds 0 in their place. *)
Definition fillna0 (a : float) : float :=
  if PrimFloat.is_nan a then 0%float else a.

(** Addition from left to right. *)
Definition seq_sum (l : list float) : float :=
  match l with
  | [] => 0%float
  | x :: l' => fold_left PrimFloat.add l' x
  end.

Record Frame : Type := mkFrame { columns : list string; rows : list (Date * list float) }.

Section Aggregation.

(** The order in which the library adds up the values of a group (with a
    running compensation) and of a column (pairwise) is the library's; the
    two sums are parameters.  On one value both return it, and on two values
    both are the one rounded addition, as [seq_sum] is. *)
Variable agg_sum : list float -> float.
Variable series_sum : list float -> float.

Section GroupBy.
Context {K : Type} `{EqDecision K} (leb : K -> K -> bool) (key : Row -> option K).

Definition group_keys (df : list Row) : list K :=
  stable_sort id leb (remove_dups (omap key df)).

Definition group_sum (df : list Row) (k : K) : float :=
  agg_sum (filter (fun a => notna a) (amount <$> filter (fun r => key r = Some k) df)).

Definition groupby_sum (df : list Row) : list (K * float) :=
  (fun k => (k, group_sum df k)) <$> group_keys df.
End GroupBy.

Fixpoint assoc {K : Type} `{EqDecision K} (k : K) (s : list (K * float)) : option float :=
  match s with
  | [] => None
  | (k', v) :: s' => if decide (k' = k) then Some v else assoc k s'
  end.

Definition unstack (fill : float) (s : list ((Date * string) * float)) : Frame :=
  let idx := stable_sort id date_leb (remove_dups ((fun e => e.1.1) <$> s)) in
  let cols := stable_sort id String.leb (remove_dups ((fun e => e.1.2) <$> s)) in
  mkFrame cols
    ((fun m => (m, (fun t => default fill (assoc (m, t) s)) <$> cols)) <$> idx).

Definition getitem (name : string) (f : Frame) : option (list float) :=
  i ← index_of name (columns f);
  Some ((fun r => nth i r.2 0%float) <$> rows f).

Definition setitem (name : string) (vals : list float) (f : Frame) : option Frame :=
  if decide (length vals = length (rows f)) then
    match index_of name (columns f) with
    | Some i =>
        Some (mkFrame (columns f)
                (zip_with (fun r v => (r.1, <[i:=v]> (r.2))) (rows f) vals))
    | None =>
        Some (mkFrame (columns f ++ [name])
                (zip_with (fun r v => (r.1, r.2 ++ [v])) (rows f) vals))
    end
  else None.

Definition setitem_scalar (name : string) (c : float) (f : Frame) : option Frame :=
  setitem name (replicate (length (rows f)) c) f.

Definition sort_index (f : Frame) : Frame :=
  mkFrame (columns f) (stable_sort fst date_leb (rows f)).

Definition month_type_key (r : Row) : option (Date * string) :=
  m ← month r; Some (m, type r).

Definition monthly_trends (df : list Row) : option Frame :=
  let monthly := unstack 0%float (groupby_sum month_type_leb month_type_key df) in
  monthly ← (if decide ("income" ∈ columns monthly) then Some monthly
             else setitem_scalar "income" 0%float monthly);
  monthly ← (if decide ("expense" ∈ columns monthly) then Some monthly
             else setitem_scalar "expense" 0%float monthly);
  let monthly := sort_index monthly in
  income ← getitem "income" monthly;
  expense ← getitem "expense" monthly;
  setitem "net" (zip_with PrimFloat.add income expense) monthly.

Definition category_key (r : Row) : option cell :=
  match category r with
  | NaN => None
  | c => Some c
  end.

Definition category_breakdown (df : list Row) : list (cell * float) :=
  let exp := filter (fun r => lt0 (amount r)) df in
  stable_sort snd PrimFloat.leb (groupby_sum cell_leb category_key exp).

(** [Series.sum()]: missing values count as 0. *)
Definition sum (l : list float) : float := series_sum (fillna0 <$> l).

(** Lines 67 to 69 of [write_summary]. *)
Record Totals : Type := mkTotals {
  total_income : float;
  total_expense : float;
  total_net : float
}.

Definition totals (monthly : Frame) : option Totals :=
  income ← getitem "income" monthly;
  expense ← getitem "expense" monthly;
  net ← getitem "net" monthly;
  Some (mkTotals (sum income) (sum expense) (sum net)).

End Aggregation.

(** [Series.cumsum()]: every entry is the entry before plus the value at
    that place; a missing value counts as 0 and is missing in the result. *)
Fixpoint cumsum_from (acc : float) (l : list float) : list float :=
  match l with
  | [] => []
  | x :: l' => PrimFloat.add acc x :: cumsum_from (PrimFloat.add acc x) l'
  end.

Definition cumsum (l : list float) : list float :=
  let filled := fillna0 <$> l in
  let sums := match filled with
              | [] => []
              | x :: l' => x :: cumsum_from x l'
              end in
  zip_with (fun x c => if PrimFloat.is_nan x then x else c) l sums.

(** Line 57 of [save_charts]. *)
Definition cum_net (monthly : Frame) : option (list float) :=
  net ← getitem "net" monthly;
  Some (cumsum net).

(** The value of column [name] in a row of a frame. *)
Definition row_value (f : Frame) (name : string) (row : Date * list float) : option float :=
  i ← index_of name (columns f); row.2 !! i.

(** Every row has one value per column. *)
Definition frame_wf (f : Frame) : Prop :=
  Forall (fun row => length row.2 = length (columns f)) (rows f).

Definition validated (df : list Row) : Prop :=
  Forall (fun r => type r = type_of (amount r)) df.

End F64.

(** ** The example of the specification *)

Definition digit (c : ascii) : option Z :=
  let n := nat_of_ascii c in
  if ((48 <=? n)%nat && (n <=? 57)%nat)%bool then Some (Z.of_nat (n - 48)) else None.

Fixpoint digits (acc : Z) (s : string) : option Z :=
  match s with
  | EmptyString => Some acc
  | String c s' => d ← digit c; digits (acc * 10 + d) s'
  end.

(** A date parser for cells written [YYYY-MM-DD], the form of the example's
    dates. *)
Definition iso_date (c : cell) : option Date :=
  match c with
  | Text s =>
      if decide (String.length s = 10%nat) then
        if decide (substring 4 1 s = "-" /\ substring 7 1 s = "-") then
          y ← digits 0 (substring 0 4 s);
          m ← digits 0 (substring 5 2 s);
          d ← digits 0 (substring 8 2 s);
          Some (mkDate y m d)
        else None
      else None
  | _ => None
  end.

Definition example_csv : RawFrame :=
  mkRaw ["date"; "description"; "amount"; "category"]
    [ [Text "2024-01-05"; NaN; Num (dollars (-50)); Text "Food"];
      [Text "2024-01-10"; NaN; Num (dollars 2000); NaN];
      [Text "2024-02-01"; NaN; Num (dollars (-30)); Text "Food"] ].

(** ** The vocabulary of the properties *)

(** Strictly earlier. *)
Definition date_lt (a b : Date) : Prop :=
  year a < year b
  \/ (year a = year b /\ (mon a < mon b \/ (mon a = mon b /\ day a < day b))).

(** Every row has one value per column. *)
Definition frame_wf (f : Frame) : Prop :=
  Forall (fun row => length row.2 = length (columns f)) (rows f).

(** The frame has a column [name], whose value in the row of month [m] is
    [val m]. *)
Definition column_is (f : Frame) (name : string) (val : Date -> Z) : Prop :=
  exists i, index_of name (columns f) = Some i
            /\ Forall (fun row => row.2 !! i = Some (val row.1)) (rows f).

(** The frame [setitem] builds for a new column. *)
Definition with_column (name : string) (g : Date * list Z -> Z) (f : Frame) : Frame :=
  mkFrame (columns f ++ [name]) ((fun r => (r.1, r.2 ++ [g r])) <$> rows f).

(** The invariant of a table returned by [load_data]: the derived columns
    are functions of [amount] and [date]. *)
Definition validated (df : list Row) : Prop :=
  Forall (fun r => type r = type_of (amount r) /\ month r = to_month <$> date r) df.

(** The months of the rows of a table. *)
Definition months_of (df : list Row) : list Date := omap month df.

(** The sum of the amounts of the rows of month [m] and type [t]. *)
Definition month_total (t : string) (m : Date) (df : list Row) : Z :=
  zsum (omap amount (filter (fun r => month r = Some m /\ type r = t) df)).

(** The value of column [name] in a row of a frame ([frame.loc[m, name]]
    for the row of month [m]). *)
Definition row_value (f : Frame) (name : string) (row : Date * list Z) : option Z :=
  i ← index_of name (columns f); row.2 !! i.

(** The key of the expense rows of a month. *)
Definition expense_month (r : Row) : option Date :=
  if decide (type r = "expense") then month r else None.

(** The table of the specification's example, as [load_data] returns it. *)
Definition example_table : list Row :=
  [ mkRow (Some (mkDate 2024 1 5)) NaN (Some (dollars (-50))) (Text "Food")
      (Some (mkDate 2024 1 1)) "expense";
    mkRow (Some (mkDate 2024 1 10)) NaN (Some (dollars 2000)) NaN
      (Some (mkDate 2024 1 1)) "income";
    mkRow (Some (mkDate 2024 2 1)) NaN (Some (dollars (-30))) (Text "Food")
      (Some (mkDate 2024 2 1)) "expense" ].



Definition uncategorised_row : Row :=
  mkRow (Some (mkDate 2024 1 20)) (Text "cash") (Some (dollars (-7))) NaN
    (Some (mkDate 2024 1 1)) "expense".

(** A required name is present when some column of the file is that name up
    to letter case. *)
Definition present (df : RawFrame) (c : string) : Prop :=
  exists col, col ∈ raw_columns df /\ lower col = c.

(** An entry with its value replaced by minus its absolute value. *)
Definition neg_abs {L : Type} (e : L * Z) : L * Z := (e.1, - Z.abs e.2).

(** Descending absolute value. *)
Definition abs_desc {L : Type} (a b : L * Z) : Prop := Z.abs b.2 <= Z.abs a.2.

(** [by_cat.abs().sort_values(ascending=False) * -1], before [head]. *)
Definition full_ranking {L : Type} (s : Series L) : Series L :=
  series_mul (sort_values_desc (series_abs s)) (-1).

Definition jan_2024 : Date := mkDate 2024 1 1.
Definition feb_2024 : Date := mkDate 2024 2 1.

(** The monthly series of the example. *)
Definition example_monthly : Frame :=
  mkFrame ["expense"; "income"; "net"]
    [ (jan_2024, [dollars (-50); dollars 2000; dollars 1950]);
      (feb_2024, [dollars (-30); dollars 0; dollars (-30)]) ].

(** A file without the columns [description] and [category]. *)
Definition short_csv : RawFrame := mkRaw ["Date"; "AMOUNT"; "Notes"] [].

(** A category series with two categories tied at 50. *)
Definition tied_by_cat : Series cell :=
  [ (Text "Rent", dollars (-100)); (Text "Books", dollars (-50));
    (Text "Food", dollars (-50)); (Text "Tea", dollars (-5)) ].



(** The order by key, and among equal keys by [R]. *)
Definition lex_le {A K : Type} (key : A -> K) (leb : K -> K -> bool) (R : relation A)
    (a b : A) : Prop :=
  key_le key leb a b /\ (key_le key leb b a -> R a b).

(** The key of the rows of type [t]: their month. *)
Definition type_month (t : string) (r : Row) : option Date :=
  if decide (type r = t) then month r else None.

(** A dated row whose amount cell is empty. *)
Definition no_amount_row : Row :=
  mkRow (Some (mkDate 2024 3 9)) (Text "refund pending") None (Text "Food")
    (Some (mkDate 2024 3 1)) "expense".


(** Amounts that are no binary fractions.  In January an income of 0.1 and
    an expense of 0.3, in February an income of 0.2. *)
Definition rounding_table : list F64.Row :=
  [ F64.mkRow (Some jan_2024) "income" 0.1%float NaN;
    F64.mkRow (Some jan_2024) "expense" (-0.3)%float (Text "Food");
    F64.mkRow (Some feb_2024) "income" 0.2%float NaN ].

(** An income of 0.1 in January and of 0.2 in February. *)
Definition savings_table : list F64.Row :=
  [ F64.mkRow (Some jan_2024) "income" 0.1%float NaN;
    F64.mkRow (Some feb_2024) "income" 0.2%float NaN ].

(** The monthly series of [savings_table]. *)
Definition savings_monthly : F64.Frame :=
  F64.mkFrame ["income"; "expense"; "net"]
    [ (jan_2024, [0.1%float; 0%float; 0.1%float]);
      (feb_2024, [0.2%float; 0%float; 0.2%float]) ].

(** Three expenses, every one with a category and a date: in January 0.1
    on food and 0.1 on rent, in February 0.4 on food. *)
Definition spending_table : list F64.Row :=
  [ F64.mkRow (Some jan_2024) "expense" (-0.1)%float (Text "Food");
    F64.mkRow (Some jan_2024) "expense" (-0.1)%float (Text "Rent");
    F64.mkRow (Some feb_2024) "expense" (-0.4)%float (Text "Food") ].

(** * Properties *)

(** ** Sums *)

Lemma zsum_cons (x : Z) (l : list Z) : zsum (x :: l) = x + zsum l.
Proof. done. Qed.

Lemma zsum_app (l k : list Z) : zsum (l ++ k) = zsum l + zsum k.
Proof. unfold zsum. induction l as [|x l IH]; simpl; lia. Qed.

Lemma zsum_Permutation (l k : list Z) : l ≡ₚ k -> zsum l = zsum k.
Proof. unfold zsum. induction 1; simpl; lia. Qed.

(** ** The sort *)

Section SortFacts.
Context {A K : Type} (key : A -> K) (leb : K -> K -> bool).

Lemma insert_sorted_Permutation (x : A) (l : list A) :
  insert_sorted key leb x l ≡ₚ x :: l.
Proof.
  induction l as [|y l IH]; simpl; [done|].
  destruct (leb (key x) (key y)); [done|].
  rewrite IH. apply perm_swap.
Qed.

Lemma stable_sort_Permutation (l : list A) : stable_sort key leb l ≡ₚ l.
Proof.
  induction l as [|x l IH]; simpl; [done|].
  rewrite insert_sorted_Permutation. by rewrite IH.
Qed.

Lemma stable_sort_length (l : list A) : length (stable_sort key leb l) = length l.
Proof. apply Permutation_length, stable_sort_Permutation. Qed.

Lemma elem_of_stable_sort (x : A) (l : list A) : x ∈ stable_sort key leb l <-> x ∈ l.
Proof. by rewrite stable_sort_Permutation. Qed.

Section Order.
Hypothesis leb_total : forall a b, leb a b = true \/ leb b a = true.
Hypothesis leb_trans : forall a b c, leb a b = true -> leb b c = true -> leb a c = true.

Lemma insert_sorted_StronglySorted (x : A) (l : list A) :
  StronglySorted (key_le key leb) l -> StronglySorted (key_le key leb) (insert_sorted key leb x l).
Proof.
  induction 1 as [|y l Hl IH Hy]; simpl.
  - repeat constructor.
  - destruct (leb (key x) (key y)) eqn:Hxy.
    + constructor; [by constructor|].
      constructor; [done|].
      eapply Forall_impl; [exact Hy|].
      intros z Hz. unfold key_le in *. eauto.
    + constructor; [done|].
      rewrite insert_sorted_Permutation. constructor; [|done].
      unfold key_le. destruct (leb_total (key x) (key y)); congruence.
Qed.

Lemma stable_sort_StronglySorted (l : list A) :
  StronglySorted (key_le key leb) (stable_sort key leb l).
Proof.
  induction l as [|x l IH]; simpl; [constructor|].
  by apply insert_sorted_StronglySorted.
Qed.
End Order.

(** Stability: the rows with a given key keep their order. *)
Section Stable.
Context `{EqDecision K}.
Hypothesis leb_refl : forall a, leb a a = true.

Lemma filter_insert_sorted (k : K) (x : A) (l : list A) :
  filter (fun y => key y = k) (insert_sorted key leb x l)
  = filter (fun y => key y = k) (x :: l).
Proof.
  induction l as [|y l IH]; simpl; [done|].
  destruct (leb (key x) (key y)) eqn:Hxy; [done|].
  rewrite filter_cons, IH, !filter_cons.
  destruct (decide (key y = k)) as [Hy|Hy], (decide (key x = k)) as [Hx|Hx];
    try done.
  rewrite Hx, Hy, leb_refl in Hxy. done.
Qed.

Lemma filter_stable_sort (k : K) (l : list A) :
  filter (fun y => key y = k) (stable_sort key leb l)
  = filter (fun y => key y = k) l.
Proof.
  induction l as [|x l IH]; simpl; [done|].
  rewrite filter_insert_sorted, !filter_cons, IH. done.
Qed.
End Stable.
End SortFacts.

(** ** The orders used as sort keys *)

Ltac date_order :=
  unfold date_leb in *;
  repeat match goal with
         | d : Date |- _ => destruct d
         end;
  simpl in *;
  repeat match goal with
         | H : _ = _ :> Date |- _ => injection H as ? ? ?
         end;
  lia.

Lemma date_leb_total (a b : Date) : date_leb a b = true \/ date_leb b a = true.
Proof. date_order. Qed.

Lemma date_leb_trans (a b c : Date) :
  date_leb a b = true -> date_leb b c = true -> date_leb a c = true.
Proof. date_order. Qed.

Lemma date_leb_antisym (a b : Date) :
  date_leb a b = true -> date_leb b a = true -> a = b.
Proof.
  destruct a as [ya ma da], b as [yb mb db]. unfold date_leb. simpl.
  intros H1 H2. f_equal; lia.
Qed.

Lemma date_leb_lt (a b : Date) : date_leb a b = true -> a <> b -> date_lt a b.
Proof.
  destruct a as [ya ma da], b as [yb mb db]. unfold date_leb, date_lt. simpl.
  intros H Hne.
  assert (~ (ya = yb /\ ma = mb /\ da = db)) by (intros (-> & -> & ->); done).
  lia.
Qed.

Lemma Zleb_total (a b : Z) : (a <=? b) = true \/ (b <=? a) = true.
Proof. lia. Qed.

Lemma Zleb_trans (a b c : Z) :
  (a <=? b) = true -> (b <=? c) = true -> (a <=? c) = true.
Proof. lia. Qed.

Lemma Zleb_refl (a : Z) : (a <=? a) = true.
Proof. lia. Qed.

(** ** Column lookup *)

Lemma index_of_Some (name : string) (cols : list string) (i : nat) :
  index_of name cols = Some i -> cols !! i = Some name.
Proof.
  revert i. induction cols as [|c cols IH]; intros i; simpl; [done|].
  destruct (decide (c = name)) as [->|Hne].
  - by intros [= <-].
  - destruct (index_of name cols) as [j|]; simpl; [|done].
    intros [= <-]. simpl. by apply IH.
Qed.

Lemma index_of_None (name : string) (cols : list string) :
  index_of name cols = None <-> name ∉ cols.
Proof.
  induction cols as [|c cols IH]; simpl.
  - split; [intros _; apply not_elem_of_nil|done].
  - rewrite not_elem_of_cons. destruct (decide (c = name)) as [->|Hne].
    + split; [done|]. intros [? _]. done.
    + destruct (index_of name cols) as [j|]; simpl.
      * split; [done|]. intros [_ H]. by apply IH in H.
      * split; [|done]. intros _. split; [done|]. by apply IH.
Qed.

Lemma index_of_elem (name : string) (cols : list string) :
  name ∈ cols -> exists i, index_of name cols = Some i.
Proof.
  intros Hin. destruct (index_of name cols) as [i|] eqn:E; [by exists i|].
  by apply index_of_None in E.
Qed.

Lemma index_of_app_l (name : string) (cols more : list string) (i : nat) :
  index_of name cols = Some i -> index_of name (cols ++ more) = Some i.
Proof.
  revert i. induction cols as [|c cols IH]; intros i; simpl; [done|].
  destruct (decide (c = name)); [done|].
  destruct (index_of name cols) as [j|]; simpl; [|done].
  intros [= <-]. by rewrite (IH j).
Qed.

Lemma index_of_app_fresh (name : string) (cols : list string) :
  name ∉ cols -> index_of name (cols ++ [name]) = Some (length cols).
Proof.
  induction cols as [|c cols IH]; simpl.
  - intros _. by rewrite decide_True.
  - rewrite not_elem_of_cons. intros [Hne Hnin].
    rewrite decide_False by done. by rewrite IH.
Qed.

(** ** Group-by *)

Lemma omap_amount_cons (r : Row) (l : list Row) :
  zsum (omap amount (r :: l)) = default 0 (amount r) + zsum (omap amount l).
Proof.
  change (omap amount (r :: l))
    with (match amount r with Some y => y :: omap amount l | None => omap amount l end).
  destruct (amount r); simpl; [apply zsum_cons|done].
Qed.

Section GroupByFacts.
Context {K : Type} `{EqDecision K} (leb : K -> K -> bool) (key : Row -> option K).

Lemma group_keys_NoDup (df : list Row) : NoDup (group_keys leb key df).
Proof.
  unfold group_keys. rewrite stable_sort_Permutation. apply NoDup_remove_dups.
Qed.

Lemma elem_of_group_keys (k : K) (df : list Row) :
  k ∈ group_keys leb key df <-> exists r, r ∈ df /\ key r = Some k.
Proof.
  unfold group_keys.
  by rewrite elem_of_stable_sort, elem_of_remove_dups, list_elem_of_omap.
Qed.

Lemma group_sum_absent (k : K) (df : list Row) :
  (forall r, r ∈ df -> key r <> Some k) -> group_sum key df k = 0.
Proof.
  intros Hno. unfold group_sum.
  replace (filter (fun r => key r = Some k) df) with (@nil Row); [done|].
  symmetry. induction df as [|r df IH]; [done|].
  rewrite filter_cons_False.
  - apply IH. intros r' Hr'. apply Hno. by right.
  - apply Hno. by left.
Qed.

Lemma assoc_fmap_pair (g : K -> Z) (k : K) (ks : list K) :
  assoc k ((fun k => (k, g k)) <$> ks) = if decide (k ∈ ks) then Some (g k) else None.
Proof.
  induction ks as [|k' ks IH].
  - destruct (decide (k ∈ [])) as [Hin|]; [|done]. by apply elem_of_nil in Hin.
  - rewrite fmap_cons. cbn [assoc]. rewrite IH.
    destruct (decide (k' = k)) as [->|Hne].
    + rewrite decide_True; [done|by left].
    + destruct (decide (k ∈ ks)) as [Hin|Hnin].
      * rewrite decide_True; [done|by right].
      * rewrite decide_False; [done|].
        rewrite not_elem_of_cons. split; [congruence|done].
Qed.

(** Looking a key up in the grouped sums, with 0 for an absent key, is the
    sum over the rows of that key. *)
Lemma assoc_groupby_sum (k : K) (df : list Row) :
  default 0 (assoc k (groupby_sum leb key df)) = group_sum key df k.
Proof.
  unfold groupby_sum. rewrite assoc_fmap_pair.
  destruct (decide (k ∈ group_keys leb key df)) as [Hin|Hnin]; [done|].
  simpl. symmetry. apply group_sum_absent.
  intros r Hr Hk. apply Hnin, elem_of_group_keys. eauto.
Qed.

Lemma group_sum_cons (r : Row) (df : list Row) (k : K) :
  group_sum key (r :: df) k
  = (if decide (key r = Some k) then default 0 (amount r) else 0)
    + group_sum key df k.
Proof.
  unfold group_sum. rewrite filter_cons.
  destruct (decide (key r = Some k)); [|lia].
  apply omap_amount_cons.
Qed.

Lemma zsum_indicator (k0 : K) (a : Z) (ks : list K) :
  NoDup ks ->
  zsum ((fun k => if decide (Some k0 = Some k) then a else 0) <$> ks)
  = if decide (k0 ∈ ks) then a else 0.
Proof.
  induction 1 as [|k ks Hk Hks IH].
  - destruct (decide (k0 ∈ [])) as [Hin|]; [|done]. by apply elem_of_nil in Hin.
  - rewrite fmap_cons. unfold zsum in *. cbn [foldr]. rewrite IH.
    destruct (decide (Some k0 = Some k)) as [[= ->]|Hne].
    + destruct (decide (k ∈ ks)); [done|].
      rewrite decide_True by (by left). lia.
    + destruct (decide (k0 ∈ ks)) as [Hin|Hnin].
      * rewrite decide_True by (by right). lia.
      * rewrite decide_False; [lia|].
        rewrite not_elem_of_cons. split; [congruence|done].
Qed.

Lemma zsum_fmap_add {B : Type} (f g : B -> Z) (l : list B) :
  zsum ((fun x => f x + g x) <$> l) = zsum (f <$> l) + zsum (g <$> l).
Proof.
  induction l as [|x l IH]; [done|].
  rewrite !fmap_cons, !zsum_cons, IH. lia.
Qed.

(** Summing the groups gives the sum over all rows that have a key. *)
Lemma zsum_group_sums (ks : list K) (df : list Row) :
  NoDup ks ->
  (forall r k, r ∈ df -> key r = Some k -> k ∈ ks) ->
  zsum (group_sum key df <$> ks)
  = zsum (omap amount (filter (fun r => is_Some (key r)) df)).
Proof.
  intros Hnd. induction df as [|r df IH]; intros Hcov.
  - clear. induction ks as [|k ks IH]; [done|].
    rewrite fmap_cons, zsum_cons, IH. done.
  - rewrite (list_fmap_ext _ (fun k =>
      (if decide (key r = Some k) then default 0 (amount r) else 0)
      + group_sum key df k) ks) by (intros; apply group_sum_cons).
    rewrite zsum_fmap_add, IH by (intros r' k Hr'; apply Hcov; by right).
    rewrite filter_cons. destruct (key r) as [k0|] eqn:Hk.
    + rewrite decide_True by eauto. rewrite zsum_indicator by done.
      rewrite decide_True by (apply (Hcov r); [by left|done]).
      rewrite omap_amount_cons. lia.
    + rewrite decide_False by (by intros [? ?]).
      match goal with
      | |- zsum ?l + _ = _ => replace (zsum l) with 0; [lia|]
      end.
      clear. induction ks as [|k ks IH]; [done|].
      rewrite fmap_cons, zsum_cons, <- IH.
      by rewrite decide_False.
Qed.
End GroupByFacts.

(** ** Frames *)

Lemma zip_with_fmap_same {A B C D : Type} (h : B -> C -> D) (a : A -> B) (b : A -> C)
    (l : list A) :
  zip_with h (a <$> l) (b <$> l) = (fun x => h (a x) (b x)) <$> l.
Proof. induction l as [|x l IH]; [done|]. rewrite !fmap_cons. simpl. by rewrite IH. Qed.

Lemma zip_with_fmap_self {A C D : Type} (h : A -> C -> D) (b : A -> C) (l : list A) :
  zip_with h l (b <$> l) = (fun x => h x (b x)) <$> l.
Proof. induction l as [|x l IH]; [done|]. rewrite !fmap_cons. simpl. by rewrite IH. Qed.

Lemma replicate_as_fmap {A B : Type} (c : B) (l : list A) :
  replicate (length l) c = (fun _ => c) <$> l.
Proof. induction l as [|x l IH]; [done|]. rewrite fmap_cons. simpl. by rewrite IH. Qed.

Lemma setitem_new (name : string) (g : Date * list Z -> Z) (f : Frame) :
  name ∉ columns f ->
  setitem name (g <$> rows f) f = Some (with_column name g f).
Proof.
  intros Hnew. unfold setitem.
  rewrite decide_True by apply length_fmap.
  apply index_of_None in Hnew. rewrite Hnew.
  unfold with_column. by rewrite zip_with_fmap_self.
Qed.

Lemma with_column_wf (name : string) g (f : Frame) :
  frame_wf f -> frame_wf (with_column name g f).
Proof.
  unfold frame_wf, with_column. simpl. intros Hwf.
  rewrite Forall_fmap. eapply Forall_impl; [exact Hwf|].
  intros row Hrow. simpl. rewrite !length_app, Hrow. done.
Qed.

Lemma with_column_old (name : string) g (f : Frame) (n : string) (v : Date -> Z) :
  column_is f n v -> column_is (with_column name g f) n v.
Proof.
  intros (i & Hi & Hrows). exists i. unfold with_column. simpl. split.
  - by apply index_of_app_l.
  - rewrite Forall_fmap. eapply Forall_impl; [exact Hrows|].
    intros row Hrow. simpl. by apply lookup_app_l_Some.
Qed.

Lemma with_column_new (name : string) g (f : Frame) (v : Date -> Z) :
  frame_wf f -> name ∉ columns f ->
  Forall (fun row => g row = v row.1) (rows f) ->
  column_is (with_column name g f) name v.
Proof.
  intros Hwf Hnew Hg. exists (length (columns f)). unfold with_column. simpl. split.
  - by apply index_of_app_fresh.
  - rewrite Forall_fmap. unfold frame_wf in Hwf.
    assert (Hboth : Forall (fun row => length row.2 = length (columns f)
                                      /\ g row = v row.1) (rows f))
      by (by apply Forall_and).
    eapply Forall_impl; [exact Hboth|].
    intros row [Hlen Hrow]. simpl.
    rewrite <- Hlen, lookup_app_r, Nat.sub_diag by done. simpl. by rewrite Hrow.
Qed.

Lemma with_column_index (name : string) g (f : Frame) :
  fst <$> rows (with_column name g f) = fst <$> rows f.
Proof. unfold with_column. simpl. by rewrite <- list_fmap_compose. Qed.

Lemma with_column_sorted (name : string) g (f : Frame) :
  StronglySorted (fun a b : Date * list Z => date_leb a.1 b.1 = true) (rows f) ->
  StronglySorted (fun a b : Date * list Z => date_leb a.1 b.1 = true)
    (rows (with_column name g f)).
Proof.
  unfold with_column. simpl.
  induction 1 as [|row l Hl IH Hrow]; [constructor|].
  rewrite fmap_cons. constructor; [done|]. by rewrite Forall_fmap.
Qed.

Lemma getitem_column_is (f : Frame) (name : string) (v : Date -> Z) :
  column_is f name v -> getitem name f = Some ((fun row => v row.1) <$> rows f).
Proof.
  intros (i & Hi & Hrows). unfold getitem. rewrite Hi. simpl. f_equal.
  apply Forall_fmap_ext_1. eapply Forall_impl; [exact Hrows|].
  intros row Hrow. by apply nth_lookup_Some.
Qed.

Lemma sort_index_wf (f : Frame) : frame_wf f -> frame_wf (sort_index f).
Proof.
  unfold frame_wf, sort_index. simpl. by rewrite stable_sort_Permutation.
Qed.

Lemma sort_index_column (f : Frame) (n : string) (v : Date -> Z) :
  column_is f n v -> column_is (sort_index f) n v.
Proof.
  intros (i & Hi & Hrows). exists i. unfold sort_index. simpl.
  split; [done|]. by rewrite stable_sort_Permutation.
Qed.

(** ** The monthly series *)

Lemma month_type_key_Some (r : Row) (m : Date) (t : string) :
  month_type_key r = Some (m, t) <-> month r = Some m /\ type r = t.
Proof.
  unfold month_type_key. destruct (month r) as [m'|]; simpl.
  - split; [by intros [= -> ->]|by intros [[= ->] ->]].
  - split; [done|by intros [? _]].
Qed.

Lemma group_sum_month_total (m : Date) (t : string) (df : list Row) :
  group_sum month_type_key df (m, t) = month_total t m df.
Proof.
  unfold group_sum, month_total. do 2 f_equal.
  apply list_filter_iff. intros r. apply month_type_key_Some.
Qed.

Lemma type_of_cases (a : option Z) : type_of a = "income" \/ type_of a = "expense".
Proof. unfold type_of. destruct (ge0 a); auto. Qed.

Lemma unstack_wf (fill : Z) (s : Series (Date * string)) : frame_wf (unstack fill s).
Proof.
  unfold frame_wf, unstack. simpl. rewrite Forall_fmap.
  apply Forall_forall. intros m _. simpl. apply length_fmap.
Qed.

Lemma unstack_column (s : Series (Date * string)) (t : string) :
  t ∈ columns (unstack 0 s) ->
  column_is (unstack 0 s) t (fun m => default 0 (assoc (m, t) s)).
Proof.
  intros Hin. destruct (index_of_elem _ _ Hin) as [i Hi].
  exists i. split; [done|].
  apply index_of_Some in Hi. unfold unstack in *. simpl in *.
  rewrite Forall_fmap. apply Forall_forall. intros m _. simpl.
  by rewrite list_lookup_fmap, Hi.
Qed.

Lemma unstack_index (fill : Z) (s : Series (Date * string)) :
  fst <$> rows (unstack fill s)
  = stable_sort id date_leb (remove_dups ((fun e => e.1.1) <$> s)).
Proof.
  unfold unstack. simpl. rewrite <- list_fmap_compose. apply list_fmap_id.
Qed.

Lemma elem_of_unstack_columns (fill : Z) (s : Series (Date * string)) (t : string) :
  t ∈ columns (unstack fill s) <-> exists m v, ((m, t), v) ∈ s.
Proof.
  unfold unstack. simpl.
  rewrite elem_of_stable_sort, elem_of_remove_dups, list_elem_of_fmap. split.
  - intros ([[m t'] v] & -> & Hin). simpl. eauto.
  - intros (m & v & Hin). by exists ((m, t), v).
Qed.

Lemma elem_of_groupby_sum {K : Type} `{EqDecision K} (leb : K -> K -> bool)
    (key : Row -> option K) (df : list Row) (k : K) (v : Z) :
  (k, v) ∈ groupby_sum leb key df
  <-> v = group_sum key df k /\ exists r, r ∈ df /\ key r = Some k.
Proof.
  unfold groupby_sum. rewrite list_elem_of_fmap, <- elem_of_group_keys. split.
  - by intros (k' & [= -> ->] & Hin).
  - intros [-> Hin]. by exists k.
Qed.

(** The step [if name not in monthly.columns: monthly[name] = 0]. *)
Lemma ensure_column (name : string) (val : Date -> Z) (f : Frame) :
  frame_wf f ->
  (name ∈ columns f -> column_is f name val) ->
  (name ∉ columns f -> forall m, val m = 0) ->
  exists f',
    (if decide (name ∈ columns f) then Some f else setitem_scalar name 0 f) = Some f'
    /\ frame_wf f'
    /\ column_is f' name val
    /\ (forall n v, column_is f n v -> column_is f' n v)
    /\ fst <$> rows f' = fst <$> rows f
    /\ (forall n, n ∈ columns f' <-> n ∈ columns f \/ n = name).
Proof.
  intros Hwf Hin Hnin. destruct (decide (name ∈ columns f)) as [H|H].
  - exists f. repeat split; auto. intros [?| ->]; done.
  - exists (with_column name (fun _ => 0) f). repeat split.
    + unfold setitem_scalar. rewrite (replicate_as_fmap 0 (rows f)).
      by apply setitem_new.
    + by apply with_column_wf.
    + apply with_column_new; [done..|].
      apply Forall_forall. intros row _. by rewrite Hnin.
    + intros n v. apply with_column_old.
    + apply with_column_index.
    + unfold with_column. simpl. rewrite elem_of_app, list_elem_of_singleton. done.
    + unfold with_column. simpl. rewrite elem_of_app, list_elem_of_singleton. done.
Qed.

(** What [monthly_trends] returns on a validated table: a frame with the
    columns [income], [expense] and [net], one row per month. *)
Lemma monthly_trends_spec (df : list Row) :
  validated df ->
  exists f,
    monthly_trends df = Some f
    /\ frame_wf f
    /\ column_is f "income" (fun m => month_total "income" m df)
    /\ column_is f "expense" (fun m => month_total "expense" m df)
    /\ column_is f "net"
         (fun m => month_total "income" m df + month_total "expense" m df)
    /\ fst <$> rows f ≡ₚ remove_dups (months_of df)
    /\ StronglySorted (fun a b => date_leb a.1 b.1 = true) (rows f).
Proof.
  intros Hval. unfold validated in Hval. unfold monthly_trends.
  set (s := groupby_sum month_type_leb month_type_key df).
  set (m0 := unstack 0 s).
  assert (Hcols0 : forall t, t ∈ columns m0 ->
            (t = "income" \/ t = "expense")
            /\ column_is m0 t (fun m => month_total t m df)).
  { intros t Ht. split.
    - apply elem_of_unstack_columns in Ht as (m & v & Hin).
      apply elem_of_groupby_sum in Hin as (_ & r & Hr & Hk).
      apply month_type_key_Some in Hk as [_ <-].
      rewrite Forall_forall in Hval. destruct (Hval r Hr) as [-> _].
      apply type_of_cases.
    - destruct (unstack_column s t Ht) as (i & Hi & Hrows).
      exists i. split; [done|].
      eapply Forall_impl; [exact Hrows|]. intros row Hrow. simpl in *.
      rewrite Hrow. f_equal. unfold s.
      by rewrite assoc_groupby_sum, group_sum_month_total. }
  assert (Hzero : forall t, t ∉ columns m0 -> forall m, month_total t m df = 0).
  { intros t Ht m. rewrite <- group_sum_month_total. apply group_sum_absent.
    intros r Hr Hk. apply Ht, elem_of_unstack_columns.
    exists m, (group_sum month_type_key df (m, t)).
    apply elem_of_groupby_sum. eauto. }
  destruct (ensure_column "income" (fun m => month_total "income" m df) m0)
    as (m1 & -> & Hwf1 & Hinc1 & Hold1 & Hidx1 & Hcols1).
  { apply unstack_wf. }
  { intros H. by apply Hcols0. }
  { intros H. by apply Hzero. }
  destruct (ensure_column "expense" (fun m => month_total "expense" m df) m1)
    as (m2 & Hm2 & Hwf2 & Hexp2 & Hold2 & Hidx2 & Hcols2); [done|..].
  { intros H. apply Hcols1 in H as [H|H]; [|done]. by apply Hold1, Hcols0. }
  { intros H. apply Hzero. intros H0. apply H, Hcols1. by left. }
  simpl. rewrite Hm2. simpl.
  pose proof (sort_index_column _ _ _ (Hold2 _ _ Hinc1)) as Hinc3.
  pose proof (sort_index_column _ _ _ Hexp2) as Hexp3.
  pose proof (sort_index_wf _ Hwf2) as Hwf3.
  set (m3 := sort_index m2) in *.
  rewrite (getitem_column_is _ _ _ Hinc3). simpl.
  rewrite (getitem_column_is _ _ _ Hexp3). simpl.
  rewrite zip_with_fmap_same.
  assert (Hnet : "net" ∉ columns m3).
  { unfold m3, sort_index. simpl. intros H.
    apply Hcols2 in H as [H|H]; [|done].
    apply Hcols1 in H as [H|H]; [|done].
    by destruct (Hcols0 _ H) as [[?|?] _]. }
  change (stable_sort fst date_leb (rows m2)) with (rows m3).
  rewrite setitem_new by done.
  eexists. split; [done|]. repeat split.
  - by apply with_column_wf.
  - by apply with_column_old.
  - by apply with_column_old.
  - apply with_column_new; [done..|]. by apply Forall_forall.
  - rewrite with_column_index. unfold m3, sort_index. simpl.
    rewrite stable_sort_Permutation, Hidx2, Hidx1. unfold m0.
    rewrite unstack_index, stable_sort_Permutation.
    apply NoDup_Permutation; [apply NoDup_remove_dups..|].
    intros m. rewrite !elem_of_remove_dups, list_elem_of_fmap.
    unfold months_of. rewrite list_elem_of_omap. split.
    + intros ([[m' t] v] & -> & Hin). simpl.
      apply elem_of_groupby_sum in Hin as (_ & r & Hr & Hk).
      apply month_type_key_Some in Hk as [Hm _]. eauto.
    + intros (r & Hr & Hm).
      exists ((m, type r), group_sum month_type_key df (m, type r)).
      split; [done|]. apply elem_of_groupby_sum. split; [done|].
      exists r. split; [done|]. by apply month_type_key_Some.
  - apply with_column_sorted. unfold m3, sort_index. simpl.
    apply (stable_sort_StronglySorted fst date_leb date_leb_total date_leb_trans).
Qed.

Lemma row_value_column_is (f : Frame) (name : string) (v : Date -> Z) row :
  column_is f name v -> row ∈ rows f -> row_value f name row = Some (v row.1).
Proof.
  intros (i & Hi & Hrows) Hrow. unfold row_value. rewrite Hi. simpl.
  rewrite Forall_forall in Hrows. by apply Hrows.
Qed.



Lemma month_total_absent (t : string) (m : Date) (df : list Row) :
  (forall r, r ∈ df -> month r = Some m -> type r <> t) -> month_total t m df = 0.
Proof.
  intros Hno. rewrite <- group_sum_month_total. apply group_sum_absent.
  intros r Hr Hk. apply month_type_key_Some in Hk as [Hm Ht]. by eapply Hno.
Qed.

Lemma StronglySorted_strict {A : Type} (key : A -> Date) (l : list A) :
  NoDup (key <$> l) ->
  StronglySorted (fun a b => date_leb (key a) (key b) = true) l ->
  StronglySorted (fun a b => date_lt (key a) (key b)) l.
Proof.
  intros Hnd Hs. induction Hs as [|x l Hl IH Hx]; [constructor|].
  rewrite fmap_cons in Hnd. apply NoDup_cons in Hnd as [Hx' Hnd].
  constructor; [by apply IH|].
  apply Forall_forall. intros y Hy. rewrite Forall_forall in Hx.
  apply date_leb_lt; [by apply Hx|].
  intros Heq. apply Hx'. rewrite Heq. by apply list_elem_of_fmap_2.
Qed.

(** C3.  On every validated table the frame returned by [monthly_trends] has
    exactly one row for each month of the table's rows and no other row;
    every row has an [income] value and an [expense] value, the sum of the
    amounts of that month and type, which is 0 when the month has no row of
    that type; and the rows are in strictly ascending order of month. *)
Theorem monthly_completeness (df : list Row) :
  validated df ->
  exists f,
    monthly_trends df = Some f
    /\ NoDup (fst <$> rows f)
    /\ (forall m, m ∈ fst <$> rows f <-> exists r, r ∈ df /\ month r = Some m)
    /\ (forall row, row ∈ rows f ->
          exists x y,
            row_value f "income" row = Some x
            /\ row_value f "expense" row = Some y
            /\ x = month_total "income" row.1 df
            /\ y = month_total "expense" row.1 df
            /\ ((forall r, r ∈ df -> month r = Some row.1 -> type r <> "income") -> x = 0)
            /\ ((forall r, r ∈ df -> month r = Some row.1 -> type r <> "expense") -> y = 0))
    /\ StronglySorted (fun a b => date_lt a.1 b.1) (rows f).
Proof.
  intros Hval.
  destruct (monthly_trends_spec df Hval)
    as (f & Hf & Hwf & Hinc & Hexp & Hnet & Hidx & Hsorted).
  assert (Hnd : NoDup (fst <$> rows f)) by (rewrite Hidx; apply NoDup_remove_dups).
  exists f. split; [done|]. split; [done|]. split; [|split].
  - intros m. rewrite Hidx, elem_of_remove_dups. unfold months_of.
    by rewrite list_elem_of_omap.
  - intros row Hrow.
    exists (month_total "income" row.1 df), (month_total "expense" row.1 df).
    rewrite (row_value_column_is _ _ _ _ Hinc Hrow),
      (row_value_column_is _ _ _ _ Hexp Hrow).
    repeat split; apply month_total_absent.
  - by apply StronglySorted_strict.
Qed.

(** ** The category series *)

Lemma category_key_Some (r : Row) (c : cell) :
  category_key r = Some c <-> category r = c /\ c <> NaN.
Proof.
  unfold category_key. destruct (category r); split;
    try (intros [= <-]; done); try (intros [<- ?]; done).
Qed.

Lemma groupby_sum_values {K : Type} `{EqDecision K} (leb : K -> K -> bool)
    (key : Row -> option K) (df : list Row) :
  zsum (snd <$> groupby_sum leb key df)
  = zsum (omap amount (filter (fun r => is_Some (key r)) df)).
Proof.
  unfold groupby_sum. rewrite <- list_fmap_compose.
  change (snd ∘ _) with (group_sum key df).
  apply zsum_group_sums; [apply group_keys_NoDup|].
  intros r k Hr Hk. apply elem_of_group_keys. eauto.
Qed.

Lemma groupby_sum_drop {K : Type} `{EqDecision K} (leb : K -> K -> bool)
    (key : Row -> option K) (l1 l2 : list Row) (r : Row) :
  key r = None ->
  groupby_sum leb key (l1 ++ r :: l2) = groupby_sum leb key (l1 ++ l2).
Proof.
  intros Hr. unfold groupby_sum.
  assert (Hkeys : omap key (l1 ++ r :: l2) = omap key (l1 ++ l2)).
  { rewrite !omap_app. f_equal.
    change (omap key (r :: l2))
      with (match key r with Some y => y :: omap key l2 | None => omap key l2 end).
    by rewrite Hr. }
  unfold group_keys. rewrite Hkeys. apply list_fmap_ext.
  intros _ k _. f_equal. unfold group_sum. do 2 f_equal.
  rewrite !filter_app. f_equal. apply filter_cons_False. by rewrite Hr.
Qed.


Lemma month_total_expense_group (m : Date) (df : list Row) :
  month_total "expense" m df = group_sum expense_month df m.
Proof.
  unfold month_total, group_sum. do 2 f_equal. apply list_filter_iff.
  intros r. unfold expense_month. destruct (decide (type r = "expense")).
  - tauto.
  - split; [tauto|done].
Qed.

Lemma validated_expense (r : Row) (z : Z) :
  type r = type_of (amount r) -> amount r = Some z ->
  (type r = "expense" <-> z < 0).
Proof.
  intros -> ->. unfold type_of, ge0. destruct (0 <=? z) eqn:Hz; split; try done; lia.
Qed.

Lemma elem_of_category_breakdown (df : list Row) (c : cell) (v : Z) :
  (c, v) ∈ category_breakdown df
  <-> c <> NaN
      /\ v = zsum (omap amount
                     (filter (fun r => category r = c /\ lt0 (amount r)) df))
      /\ exists r, r ∈ df /\ lt0 (amount r) /\ category r = c.
Proof.
  unfold category_breakdown, sort_values.
  rewrite elem_of_stable_sort, elem_of_groupby_sum.
  unfold group_sum. rewrite list_filter_filter.
  split.
  - intros (-> & r & Hr & Hk). apply list_elem_of_filter in Hr as [Hlt Hr].
    apply category_key_Some in Hk as [Hc Hnan]. split; [done|]. split.
    + do 2 f_equal. apply list_filter_iff. intros r'.
      rewrite category_key_Some. tauto.
    + eauto.
  - intros (Hnan & -> & r & Hr & Hlt & Hc). split.
    + do 2 f_equal. apply list_filter_iff. intros r'.
      rewrite category_key_Some. tauto.
    + exists r. split; [by apply list_elem_of_filter|].
      by apply category_key_Some.
Qed.

(** The categories of the series are distinct. *)
Lemma category_breakdown_NoDup (df : list Row) : NoDup (fst <$> category_breakdown df).
Proof.
  unfold category_breakdown, sort_values.
  rewrite stable_sort_Permutation. unfold groupby_sum.
  rewrite <- list_fmap_compose.
  rewrite (list_fmap_ext _ id (group_keys cell_leb category_key
                                 (filter (fun r => lt0 (amount r)) df)))
    by done.
  rewrite list_fmap_id. apply group_keys_NoDup.
Qed.


Lemma example_table_loaded : load_data iso_date example_csv = inr example_table.
Proof. vm_compute. reflexivity. Qed.

Lemma example_table_validated : validated example_table.
Proof. unfold validated, example_table. repeat constructor. Defined.

Lemma monthly_completeness_witness :
  validated example_table
  /\ exists f,
       monthly_trends example_table = Some f
       /\ NoDup (fst <$> rows f)
       /\ (forall m, m ∈ fst <$> rows f
                     <-> exists r, r ∈ example_table /\ month r = Some m)
       /\ (forall row, row ∈ rows f ->
             exists x y,
               row_value f "income" row = Some x
               /\ row_value f "expense" row = Some y
               /\ x = month_total "income" row.1 example_table
               /\ y = month_total "expense" row.1 example_table
               /\ ((forall r, r ∈ example_table -> month r = Some row.1 ->
                              type r <> "income") -> x = 0)
               /\ ((forall r, r ∈ example_table -> month r = Some row.1 ->
                              type r <> "expense") -> y = 0))
       /\ StronglySorted (fun a b => date_lt a.1 b.1) (rows f).
Proof.
  split; [exact example_table_validated|].
  apply (monthly_completeness example_table). exact example_table_validated.
Defined.




Lemma month_total_app (t : string) (m : Date) (l1 l2 : list Row) :
  month_total t m (l1 ++ l2) = month_total t m l1 + month_total t m l2.
Proof. unfold month_total. by rewrite filter_app, omap_app, zsum_app. Qed.

(** C10.  An expense row without a category is dropped by the group-by of
    [category_breakdown]: the category series is the one of the table without
    that row.  The same row is counted in the [expense] value of its month in
    the frame returned by [monthly_trends]. *)
Theorem uncategorised_expense (l1 l2 : list Row) (r : Row) (a : Z) (m : Date) :
  validated (l1 ++ r :: l2) ->
  amount r = Some a -> a < 0 -> category r = NaN -> month r = Some m ->
  category_breakdown (l1 ++ r :: l2) = category_breakdown (l1 ++ l2)
  /\ (forall c v, (c, v) ∈ category_breakdown (l1 ++ r :: l2) -> category r <> c)
  /\ exists f row,
       monthly_trends (l1 ++ r :: l2) = Some f
       /\ row ∈ rows f
       /\ row.1 = m
       /\ row_value f "expense" row
          = Some (a + month_total "expense" m (l1 ++ l2)).
Proof.
  intros Hval Ha Hneg Hcat Hm. split; [|split].
  - unfold category_breakdown. rewrite !filter_app, filter_cons_True.
    + f_equal. apply groupby_sum_drop. unfold category_key. by rewrite Hcat.
    + rewrite Ha. simpl. apply Is_true_true. by apply Z.ltb_lt.
  - intros c v Hin. apply elem_of_category_breakdown in Hin as (Hnan & _).
    by rewrite Hcat.
  - destruct (monthly_trends_spec _ Hval)
      as (f & Hf & Hwf & Hinc & Hexp & Hnet & Hidx & Hsorted).
    assert (Hin : m ∈ fst <$> rows f).
    { rewrite Hidx, elem_of_remove_dups. unfold months_of.
      apply list_elem_of_omap. exists r. split; [|done].
      apply elem_of_app. right. by left. }
    apply list_elem_of_fmap in Hin as (row & -> & Hrow).
    exists f, row. split; [done|]. split; [done|]. split; [done|].
    rewrite (row_value_column_is _ _ _ _ Hexp Hrow). f_equal.
    assert (Hty : type r = "expense").
    { unfold validated in Hval. rewrite Forall_forall in Hval.
      destruct (Hval r) as [Ht _]; [apply elem_of_app; right; by left|].
      by apply (validated_expense r a Ht Ha). }
    rewrite !month_total_app.
    assert (Hr : month_total "expense" row.1 [r] = a).
    { unfold month_total. rewrite filter_cons_True by done.
      rewrite omap_amount_cons, Ha. simpl. unfold zsum. simpl. lia. }
    change (r :: l2) with ([r] ++ l2). rewrite month_total_app, Hr. lia.
Qed.

Lemma uncategorised_expense_witness :
  validated (example_table ++ uncategorised_row :: [])
  /\ amount uncategorised_row = Some (dollars (-7))
  /\ dollars (-7) < 0
  /\ category uncategorised_row = NaN
  /\ month uncategorised_row = Some (mkDate 2024 1 1)
  /\ category_breakdown (example_table ++ uncategorised_row :: [])
     = category_breakdown (example_table ++ [])
  /\ exists f row,
       monthly_trends (example_table ++ uncategorised_row :: []) = Some f
       /\ row ∈ rows f
       /\ row.1 = mkDate 2024 1 1
       /\ row_value f "expense" row
          = Some (dollars (-7)
                  + month_total "expense" (mkDate 2024 1 1) (example_table ++ [])).
Proof.
  assert (Hv : validated (example_table ++ uncategorised_row :: []))
    by (unfold validated; repeat constructor).
  assert (Hneg : dollars (-7) < 0) by (unfold dollars; lia).
  destruct (uncategorised_expense example_table [] uncategorised_row
              (dollars (-7)) (mkDate 2024 1 1) Hv eq_refl Hneg eq_refl eq_refl)
    as (H1 & _ & H2).
  repeat (split; [done|]). exact H2.
Defined.

(** ** The loader *)

Lemma elem_of_required (c : string) :
  c ∈ required <-> c = "date" \/ c = "description" \/ c = "amount" \/ c = "category".
Proof. unfold required. rewrite !elem_of_union, !elem_of_singleton. tauto. Qed.

Lemma elem_of_missing (df : RawFrame) (c : string) :
  c ∈ required ∖ list_to_set (lower <$> raw_columns df)
  <-> c ∈ required /\ ~ present df c.
Proof.
  rewrite elem_of_difference, elem_of_list_to_set, list_elem_of_fmap.
  unfold present. split; intros [Hreq Hno]; (split; [done|]).
  - intros (col & Hcol & <-). apply Hno. eauto.
  - intros (col & -> & Hcol). apply Hno. eauto.
Qed.

Lemma required_present (cols : list string) (c : string) :
  required ∖ list_to_set cols = (∅ : gset string) -> c ∈ required -> c ∈ cols.
Proof.
  intros Hempty Hc. destruct (decide (c ∈ cols)) as [|Hno]; [done|].
  assert (Hin : c ∈ required ∖ (list_to_set cols : gset string)).
  { apply elem_of_difference. split; [done|]. by rewrite elem_of_list_to_set. }
  rewrite Hempty in Hin. by apply not_elem_of_empty in Hin.
Qed.

Lemma load_column_Forall2 {A : Type} (conv : cell -> LoadError + A) (cs : list cell)
    (l : list A) :
  load_column conv cs = inr l -> Forall2 (fun c a => conv c = inr a) cs l.
Proof.
  revert l. induction cs as [|c cs IH]; intros l; simpl.
  - intros [= <-]. constructor.
  - destruct (conv c) as [e|a] eqn:Hc; [done|].
    destruct (load_column conv cs) as [e|l']; [done|].
    intros [= <-]. constructor; [done|by apply IH].
Qed.

Lemma load_column_not_missing {A : Type} (conv : cell -> LoadError + A)
    (cs : list cell) (miss : gset string) :
  (forall c, conv c <> inl (MissingColumns miss)) ->
  load_column conv cs <> inl (MissingColumns miss).
Proof.
  intros Hconv. induction cs as [|c cs IH]; simpl; [done|].
  destruct (conv c) as [e|a] eqn:Hc; [intros [= ->]; by eapply Hconv|].
  destruct (load_column conv cs) as [e|l]; [|done].
  intros [= ->]. by apply IH.
Qed.

Lemma to_amount_not_missing (c : cell) (miss : gset string) :
  to_amount c <> inl (MissingColumns miss).
Proof. by destruct c. Qed.

Lemma column_position_not_missing (name : string) (cols : list string)
    (miss : gset string) :
  column_position name cols <> inl (MissingColumns miss).
Proof.
  unfold column_position.
  destruct (positions_from 0 name cols) as [|i [|j l]]; done.
Qed.

Lemma load_amounts_not_missing (cols : list string) (rs : list (list cell))
    (miss : gset string) :
  load_amounts cols rs <> inl (MissingColumns miss).
Proof.
  unfold load_amounts.
  destruct (positions_from 0 "amount" cols) as [|i [|j l]].
  - destruct (load_column _ _) as [e|?] eqn:He; [|done].
    intros [= ->]. revert He. apply load_column_not_missing; intros c; apply to_amount_not_missing.
  - apply load_column_not_missing; intros c; apply to_amount_not_missing.
  - destruct (load_column _ _) as [e|?] eqn:He; [|done].
    intros [= ->]. revert He. apply load_column_not_missing; intros c; apply to_amount_not_missing.
Qed.

(** A successful comparison of the amounts: there is one [amount] column. *)
Lemma load_amounts_inr (cols : list string) (rs : list (list cell))
    (amounts : list (option Z)) :
  load_amounts cols rs = inr amounts ->
  exists i, column_position "amount" cols = inr i
            /\ load_column to_amount (get_cell i <$> rs) = inr amounts.
Proof.
  unfold load_amounts, column_position.
  destruct (positions_from 0 "amount" cols) as [|i [|j l]].
  - by destruct (load_column _ _).
  - eauto.
  - by destruct (load_column _ _).
Qed.

Section LoaderFacts.
Variable parse_date : cell -> option Date.

Lemma to_datetime_not_missing (c : cell) (miss : gset string) :
  to_datetime parse_date c <> inl (MissingColumns miss).
Proof. unfold to_datetime. destruct c; try done; by destruct (parse_date _). Qed.

(** What a successful load is made of: there is one [date] and one [amount]
    column, and the table has the rows of the file, one for one. *)
Lemma load_data_inr (df : RawFrame) (tbl : list Row) :
  load_data parse_date df = inr tbl ->
  exists idate iamount,
    column_position "date" (lower <$> raw_columns df) = inr idate
    /\ column_position "amount" (lower <$> raw_columns df) = inr iamount
    /\ "category" ∈ lower <$> raw_columns df
    /\ Forall2 (fun r row =>
                  exists d a,
                    to_datetime parse_date (get_cell idate r) = inr d
                    /\ to_amount (get_cell iamount r) = inr a
                    /\ row = make_row
                               (first_position "description" (lower <$> raw_columns df))
                               (first_position "category" (lower <$> raw_columns df))
                               r (d, a))
         (raw_rows df) tbl.
Proof.
  unfold load_data. destruct (decide _) as [Hempty|]; [|done].
  destruct (column_position "date" _) as [|idate]; [done|].
  destruct (load_column _ _) as [|dates] eqn:Hdates; [done|].
  destruct (load_amounts _ _) as [|amounts] eqn:Hamounts; [done|].
  apply load_amounts_inr in Hamounts as (iamount & Hpos & Hamounts).
  intros [= <-]. exists idate, iamount. split; [done|]. split; [done|].
  split. { apply (required_present _ _ Hempty), elem_of_required. tauto. }
  apply load_column_Forall2 in Hdates, Hamounts.
  apply Forall2_fmap_l in Hdates, Hamounts.
  revert dates amounts Hdates Hamounts.
  induction (raw_rows df) as [|r rs IH]; intros dates amounts Hdates Hamounts.
  - inversion Hdates; subst. constructor.
  - inversion Hdates as [|? d ? dates' Hd Hdates']; subst.
    inversion Hamounts as [|? a ? amounts' Ha Hamounts']; subst.
    simpl. constructor; [by exists d, a|by apply IH].
Qed.

(** Every table [load_data] returns is validated. *)
Lemma load_data_validated (df : RawFrame) (rows : list Row) :
  load_data parse_date df = inr rows -> validated rows.
Proof.
  intros (idate & iamount & _ & _ & _ & Hrows)%load_data_inr.
  unfold validated. induction Hrows as [|r row rs tbl (d & a & _ & _ & ->) _ IH];
    constructor; done.
Qed.

(** C4.  When a required column is missing from the header, compared without
    regard to letter case, [load_data] raises the error that carries exactly
    the set of the missing required names, and returns no table; when all
    four are present it does not raise that error. *)
Theorem schema_validation (df : RawFrame) :
  ((exists c, c ∈ required /\ ~ present df c) ->
   exists miss,
     load_data parse_date df = inl (MissingColumns miss)
     /\ forall c, c ∈ miss <-> c ∈ required /\ ~ present df c)
  /\ ((forall c, c ∈ required -> present df c) ->
      forall miss, load_data parse_date df <> inl (MissingColumns miss)).
Proof.
  split.
  - intros (c & Hreq & Hno).
    exists (required ∖ list_to_set (lower <$> raw_columns df)).
    split; [|apply elem_of_missing].
    unfold load_data. rewrite decide_False; [done|].
    intros Hempty.
    assert (Hc : c ∈ required ∖ list_to_set (lower <$> raw_columns df))
      by (by apply elem_of_missing).
    rewrite Hempty in Hc. by apply not_elem_of_empty in Hc.
  - intros Hall miss. unfold load_data.
    rewrite decide_True.
    + destruct (column_position "date" _) eqn:H1;
        [intros [= ->]; by eapply column_position_not_missing|].
      destruct (load_column _ _) eqn:H2;
        [intros [= ->]; revert H2;
         apply load_column_not_missing; intros c; apply to_datetime_not_missing|].
      destruct (load_amounts _ _) eqn:H3;
        [intros [= ->]; by eapply load_amounts_not_missing|].
      done.
    + apply set_eq. intros c. rewrite elem_of_missing.
      split; [|by intros ?%not_elem_of_empty].
      intros [Hreq Hno]. exfalso. by apply Hno, Hall.
Qed.

(** C8.  In every row of a table returned by [load_data], [type] is
    ["income"] exactly when [amount >= 0] and ["expense"] exactly when it is
    not; it is one of the two and never both. *)
Theorem sign_invariant (df : RawFrame) (rows : list Row) :
  load_data parse_date df = inr rows ->
  forall r, r ∈ rows ->
    type r = type_of (amount r)
    /\ (type r = "income" <-> exists z, amount r = Some z /\ 0 <= z)
    /\ (type r = "expense" <-> ~ exists z, amount r = Some z /\ 0 <= z)
    /\ (type r = "income" \/ type r = "expense")
    /\ ~ (type r = "income" /\ type r = "expense").
Proof.
  intros Hload r Hr. apply load_data_validated in Hload.
  unfold validated in Hload. rewrite Forall_forall in Hload.
  destruct (Hload r Hr) as [Ht _]. split; [done|].
  rewrite Ht. unfold type_of, ge0.
  destruct (amount r) as [z|].
  - destruct (0 <=? z) eqn:Hz.
    + apply Z.leb_le in Hz.
      split; [split; [intros _; eauto|done]|].
      split; [split; [done|intros H; exfalso; apply H; eauto]|].
      split; [by left|]. by intros [_ ?].
    + apply Z.leb_gt in Hz.
      split; [split; [done|intros (z' & [= <-] & ?); lia]|].
      split; [split; [intros _ (z' & [= <-] & ?); lia|done]|].
      split; [by right|]. by intros [? _].
  - split; [split; [done|by intros (z' & ? & ?)]|].
    split; [split; [by intros _ (z' & ? & ?)|done]|].
    split; [by right|]. by intros [? _].
Qed.

End LoaderFacts.

(** ** Rounding *)

Lemma round2_mono (x y : Z) : x <= y -> round2 x <= round2 y.
Proof.
  intros Hxy. unfold round2.
  pose proof (Z.div_mod x 100 ltac:(lia)) as Hx.
  pose proof (Z.div_mod y 100 ltac:(lia)) as Hy.
  pose proof (Z.mod_pos_bound x 100 ltac:(lia)) as Bx.
  pose proof (Z.mod_pos_bound y 100 ltac:(lia)) as By.
  assert (x / 100 <= y / 100) as Hq by (apply Z.div_le_mono; lia).
  destruct (Z.eq_dec (x / 100) (y / 100)) as [Heq|Hne].
  - rewrite Heq in *.
    destruct (x mod 100 <? 50) eqn:E1, (y mod 100 <? 50) eqn:E2,
      (50 <? x mod 100) eqn:E3, (50 <? y mod 100) eqn:E4,
      (Z.even (y / 100)); lia.
  - destruct (x mod 100 <? 50), (y mod 100 <? 50), (50 <? x mod 100),
      (50 <? y mod 100), (Z.even (x / 100)), (Z.even (y / 100)); lia.
Qed.

Lemma round2_0 : round2 0 = 0.
Proof. reflexivity. Qed.

Lemma round2_nonpos (x : Z) : x <= 0 -> round2 x <= 0.
Proof. intros H. rewrite <- round2_0. by apply round2_mono. Qed.

(** ** The ranking of the categories *)

Lemma StronglySorted_reverse {A : Type} (R : relation A) (l : list A) :
  StronglySorted R l -> StronglySorted (flip R) (reverse l).
Proof.
  induction 1 as [|x l Hl IH Hx]; [constructor|].
  rewrite reverse_cons. apply StronglySorted_app_2; [|done|repeat constructor].
  intros y z Hy Hz. apply list_elem_of_singleton in Hz as ->.
  rewrite elem_of_reverse in Hy. rewrite Forall_forall in Hx.
  unfold flip. by apply Hx.
Qed.

Lemma StronglySorted_weaken {A : Type} (R R' : relation A) (l : list A) :
  (forall a b, a ∈ l -> b ∈ l -> R a b -> R' a b) ->
  StronglySorted R l -> StronglySorted R' l.
Proof.
  intros Himp Hs. induction Hs as [|x l Hl IH Hx]; [constructor|].
  constructor.
  - apply IH. intros a b Ha Hb. apply Himp; by right.
  - apply Forall_forall. intros y Hy. rewrite Forall_forall in Hx.
    apply Himp; [by left|by right|by apply Hx].
Qed.

Section Ranking.
Context {L : Type}.
Implicit Types s : Series L.

Lemma sort_values_desc_Permutation s : sort_values_desc s ≡ₚ s.
Proof.
  unfold sort_values_desc.
  by rewrite reverse_Permutation, stable_sort_Permutation, reverse_Permutation.
Qed.

Lemma sort_values_desc_sorted s :
  StronglySorted (fun a b : L * Z => b.2 <= a.2) (sort_values_desc s).
Proof.
  unfold sort_values_desc.
  pose proof (stable_sort_StronglySorted (snd : L * Z -> Z) Z.leb Zleb_total Zleb_trans
                (reverse s)) as Hs.
  apply StronglySorted_reverse in Hs.
  eapply StronglySorted_weaken; [|exact Hs].
  intros a b _ _. unfold flip, key_le. lia.
Qed.

Lemma full_ranking_Permutation s : full_ranking s ≡ₚ neg_abs <$> s.
Proof.
  unfold full_ranking, series_mul. rewrite sort_values_desc_Permutation.
  unfold series_abs. rewrite <- list_fmap_compose.
  erewrite list_fmap_ext; [done|].
  intros _ e _. unfold neg_abs. simpl. f_equal. lia.
Qed.

Lemma full_ranking_nonpos s : Forall (fun e => e.2 <= 0) (full_ranking s).
Proof.
  rewrite full_ranking_Permutation, Forall_fmap.
  apply Forall_forall. intros e _. simpl. lia.
Qed.

Lemma full_ranking_ascending s :
  StronglySorted (fun a b : L * Z => a.2 <= b.2 /\ b.2 <= 0) (full_ranking s).
Proof.
  pose proof (full_ranking_nonpos s) as Hneg. rewrite Forall_forall in Hneg.
  eapply StronglySorted_weaken with (R := fun a b : L * Z => a.2 <= b.2).
  { intros a b _ Hb Hab. split; [done|by apply Hneg]. }
  unfold full_ranking, series_mul.
  eapply StronglySorted_fmap; [|apply sort_values_desc_sorted].
  intros a b Hab. simpl in *. lia.
Qed.

Lemma full_ranking_sorted s : StronglySorted abs_desc (full_ranking s).
Proof.
  pose proof (full_ranking_nonpos s) as Hneg. rewrite Forall_forall in Hneg.
  eapply StronglySorted_weaken; [|apply full_ranking_ascending].
  intros a b Ha Hb [Hab _]. unfold abs_desc.
  pose proof (Hneg a Ha). pose proof (Hneg b Hb). lia.
Qed.

Lemma top_as_take (n : nat) s :
  series_mul (head n (sort_values_desc (series_abs s))) (-1) = take n (full_ranking s).
Proof. unfold series_mul, head, full_ranking. apply fmap_take. Qed.

Lemma take_sorted {A : Type} (R : relation A) (n : nat) (l : list A) :
  StronglySorted R l -> StronglySorted R (take n l).
Proof.
  intros Hs. rewrite <- (take_drop n l) in Hs.
  by apply StronglySorted_app_1_l in Hs.
Qed.

Lemma rounded_sorted (l : Series L) :
  StronglySorted (fun a b : L * Z => a.2 <= b.2 /\ b.2 <= 0) l ->
  StronglySorted abs_desc (series_round2 l).
Proof.
  intros Hs. unfold series_round2.
  eapply StronglySorted_fmap; [|exact Hs].
  intros a b [Hab Hb]. unfold abs_desc. simpl.
  pose proof (round2_mono _ _ Hab). pose proof (round2_nonpos _ Hb). lia.
Qed.

End Ranking.

(** ** The reporter *)

Lemma reporter_returns (m : Frame) (by_cat : Series cell) (income expense net : list Z) :
  getitem "income" m = Some income ->
  getitem "expense" m = Some expense ->
  getitem "net" m = Some net ->
  save_charts m by_cat
  = Some (mkCharts (fst <$> rows m, (income, expense, net))
            (take 10 (full_ranking by_cat)) (cumsum net))
  /\ write_summary m by_cat
     = Some (mkSummary (zsum income) (zsum expense) (zsum net)
               (series_round2 (take 5 (full_ranking by_cat)))).
Proof.
  intros Hi He Hn. unfold save_charts, write_summary.
  rewrite Hi, He, Hn.
  cbn -[series_mul head sort_values_desc series_abs series_round2 cumsum zsum].
  by rewrite !top_as_take.
Qed.

(** C6.  Given a monthly series, [save_charts] and [write_summary] return
    for every category series, the empty one included: [top10] has at most 10
    entries and [top5] at most 5; [top10] is the head of the categories
    ranked by descending absolute value, each value replaced by minus its
    absolute value; [top5] is the first five of them rounded to two decimals,
    still in descending absolute value; no value is positive; and both are
    empty when the category series is empty. *)
Theorem top_n_bound (m : Frame) (by_cat : Series cell) (income expense net : list Z) :
  getitem "income" m = Some income ->
  getitem "expense" m = Some expense ->
  getitem "net" m = Some net ->
  exists charts summary,
    save_charts m by_cat = Some charts
    /\ write_summary m by_cat = Some summary
    /\ length (top10 charts) = Nat.min 10 (length by_cat)
    /\ length (top5 summary) = Nat.min 5 (length by_cat)
    /\ (length (top10 charts) <= 10)%nat
    /\ (length (top5 summary) <= 5)%nat
    /\ (exists rest,
          top10 charts ++ rest ≡ₚ neg_abs <$> by_cat
          /\ StronglySorted abs_desc (top10 charts ++ rest))
    /\ top5 summary = series_round2 (take 5 (top10 charts))
    /\ StronglySorted abs_desc (top5 summary)
    /\ Forall (fun e => e.2 <= 0) (top10 charts)
    /\ Forall (fun e => e.2 <= 0) (top5 summary)
    /\ (by_cat = [] -> top10 charts = [] /\ top5 summary = []).
Proof.
  intros Hi He Hn.
  destruct (reporter_returns m by_cat income expense net Hi He Hn) as [Hc Hs].
  eexists _, _. split; [exact Hc|]. split; [exact Hs|]. simpl.
  assert (Hlen : length (full_ranking by_cat) = length by_cat).
  { rewrite (Permutation_length (full_ranking_Permutation by_cat)).
    apply length_fmap. }
  assert (H10 : length (take 10 (full_ranking by_cat)) = Nat.min 10 (length by_cat))
    by (by rewrite length_take, Hlen).
  assert (H5 : length (series_round2 (take 5 (full_ranking by_cat)))
               = Nat.min 5 (length by_cat)).
  { unfold series_round2. by rewrite length_fmap, length_take, Hlen. }
  split; [done|]. split; [done|]. split; [lia|]. split; [lia|].
  split; [|split; [|split; [|split; [|split]]]].
  - exists (drop 10 (full_ranking by_cat)). rewrite take_drop.
    split; [apply full_ranking_Permutation|apply full_ranking_sorted].
  - by rewrite take_take.
  - apply rounded_sorted, take_sorted, full_ranking_ascending.
  - apply Forall_take, full_ranking_nonpos.
  - unfold series_round2. rewrite Forall_fmap.
    eapply Forall_impl; [apply Forall_take, full_ranking_nonpos|].
    intros e He'. simpl. by apply round2_nonpos.
  - intros ->. done.
Qed.

Lemma cumsum_from_length (acc : Z) (l : list Z) :
  length (cumsum_from acc l) = length l.
Proof. revert acc. induction l as [|x l IH]; intros acc; simpl; [done|]. by rewrite IH. Qed.

Lemma cumsum_from_lookup (l : list Z) (acc : Z) (i : nat) (x : Z) :
  l !! i = Some x -> cumsum_from acc l !! i = Some (acc + zsum (take (S i) l)).
Proof.
  revert acc i. induction l as [|y l IH]; intros acc i Hi; [done|].
  destruct i as [|i]; simpl.
  - f_equal. unfold zsum. simpl. lia.
  - simpl in Hi. rewrite (IH _ _ Hi). f_equal.
    change (zsum (y :: take (S i) l)) with (y + zsum (take (S i) l)). lia.
Qed.

(** ** The example and the witnesses *)

(** C1.  The run on the rows (2024-01-05, -50, Food), (2024-01-10, 2000, no
    category), (2024-02-01, -30, Food): January has income 2000, expense -50
    and net 1950, February income 0, expense -30 and net -30; the category
    series is Food: -80; the totals are 2000, -80 and 1920; top5 is
    Food: -80.00; and the cumulative net series is 1950, 1920. *)
Theorem example_run :
  main iso_date example_csv
  = inr (mkOutput
           example_monthly
           [(Text "Food", dollars (-80))]
           (mkCharts
              ([jan_2024; feb_2024],
               ([dollars 2000; dollars 0],
                [dollars (-50); dollars (-30)],
                [dollars 1950; dollars (-30)]))
              [(Text "Food", dollars (-80))]
              [dollars 1950; dollars 1920])
           (mkSummary (dollars 2000) (dollars (-80)) (dollars 1920)
              [(Text "Food", dollars (-80))]))
  /\ monthly_trends example_table = Some example_monthly
  /\ category_breakdown example_table = [(Text "Food", dollars (-80))].
Proof. repeat split; vm_compute; reflexivity. Qed.

Lemma short_csv_missing : exists c, c ∈ required /\ ~ present short_csv c.
Proof.
  exists "category". split; [apply elem_of_required; tauto|].
  intros (col & Hcol & Hlow). unfold short_csv in Hcol. simpl in Hcol.
  apply elem_of_cons in Hcol as [->|Hcol]; [done|].
  apply elem_of_cons in Hcol as [->|Hcol]; [done|].
  apply elem_of_cons in Hcol as [->|Hcol]; [done|].
  by apply elem_of_nil in Hcol.
Defined.

Lemma schema_validation_witness :
  (exists c, c ∈ required /\ ~ present short_csv c)
  /\ exists miss,
       load_data iso_date short_csv = inl (MissingColumns miss)
       /\ forall c, c ∈ miss <-> c ∈ required /\ ~ present short_csv c.
Proof.
  split; [exact short_csv_missing|].
  apply (proj1 (schema_validation iso_date short_csv)). exact short_csv_missing.
Defined.

Lemma sign_invariant_witness :
  load_data iso_date example_csv = inr example_table
  /\ forall r, r ∈ example_table ->
       type r = type_of (amount r)
       /\ (type r = "income" <-> exists z, amount r = Some z /\ 0 <= z)
       /\ (type r = "expense" <-> ~ exists z, amount r = Some z /\ 0 <= z)
       /\ (type r = "income" \/ type r = "expense")
       /\ ~ (type r = "income" /\ type r = "expense").
Proof.
  split; [exact example_table_loaded|].
  apply (sign_invariant iso_date example_csv example_table example_table_loaded).
Defined.

Lemma top_n_bound_witness :
  getitem "income" example_monthly = Some [dollars 2000; dollars 0]
  /\ getitem "expense" example_monthly = Some [dollars (-50); dollars (-30)]
  /\ getitem "net" example_monthly = Some [dollars 1950; dollars (-30)]
  /\ exists charts summary,
       save_charts example_monthly tied_by_cat = Some charts
       /\ write_summary example_monthly tied_by_cat = Some summary
       /\ length (top10 charts) = Nat.min 10 (length tied_by_cat)
       /\ length (top5 summary) = Nat.min 5 (length tied_by_cat)
       /\ (length (top10 charts) <= 10)%nat
       /\ (length (top5 summary) <= 5)%nat
       /\ (exists rest,
             top10 charts ++ rest ≡ₚ neg_abs <$> tied_by_cat
             /\ StronglySorted abs_desc (top10 charts ++ rest))
       /\ top5 summary = series_round2 (take 5 (top10 charts))
       /\ StronglySorted abs_desc (top5 summary)
       /\ Forall (fun e => e.2 <= 0) (top10 charts)
       /\ Forall (fun e => e.2 <= 0) (top5 summary)
       /\ (tied_by_cat = [] -> top10 charts = [] /\ top5 summary = []).
Proof.
  split; [reflexivity|]. split; [reflexivity|]. split; [reflexivity|].
  apply (top_n_bound example_monthly tied_by_cat
           [dollars 2000; dollars 0] [dollars (-50); dollars (-30)]
           [dollars 1950; dollars (-30)]); reflexivity.
Defined.

(** * Further properties of the code *)

(** ** The loader: header and rows *)

Lemma lower_ascii_idem (c : ascii) : lower_ascii (lower_ascii c) = lower_ascii c.
Proof.
  destruct c as [b0 b1 b2 b3 b4 b5 b6 b7].
  destruct b0, b1, b2, b3, b4, b5, b6, b7; reflexivity.
Qed.

Lemma lower_idem (s : string) : lower (lower s) = lower s.
Proof. induction s as [|c s IH]; simpl; [done|]. by rewrite lower_ascii_idem, IH. Qed.

Lemma elem_of_positions_from (k : nat) (name : string) (cols : list string) (i : nat) :
  i ∈ positions_from k name cols
  <-> (k <= i)%nat /\ cols !! (i - k)%nat = Some name.
Proof.
  revert k. induction cols as [|c cols IH]; intros k; simpl.
  - split; [by intros ?%elem_of_nil|by intros [_ ?]].
  - assert (Hnext : i ∈ positions_from (S k) name cols
                    <-> (k < i)%nat /\ (c :: cols) !! (i - k)%nat = Some name).
    { rewrite IH. split.
      - intros [Hle Hi]. split; [lia|].
        replace (i - k)%nat with (S (i - S k)) by lia. done.
      - intros [Hlt Hi]. split; [lia|].
        replace (i - k)%nat with (S (i - S k)) in Hi by lia. done. }
    destruct (String.eqb_spec c name) as [->|Hne].
    + rewrite elem_of_cons, Hnext. split.
      * intros [->|[Hlt Hi]]; [|split; [lia|done]].
        split; [lia|]. by rewrite Nat.sub_diag.
      * intros [Hle Hi]. destruct (decide (i = k)) as [->|Hik]; [by left|].
        right. split; [lia|done].
    + rewrite Hnext. split.
      * intros [Hlt Hi]. split; [lia|done].
      * intros [Hle Hi]. split; [|done].
        destruct (decide (i = k)) as [->|Hik]; [|lia].
        rewrite Nat.sub_diag in Hi. simpl in Hi. congruence.
Qed.

(** A column found by [column_position] is the only one of that name. *)
Lemma column_position_inr (name : string) (cols : list string) (i : nat) :
  column_position name cols = inr i ->
  cols !! i = Some name /\ forall j, cols !! j = Some name -> j = i.
Proof.
  unfold column_position.
  destruct (positions_from 0 name cols) as [|i' [|j' l]] eqn:Hpos; try done.
  intros [= ->]. split.
  - assert (Hin : i ∈ positions_from 0 name cols) by (rewrite Hpos; by left).
    apply elem_of_positions_from in Hin as [_ Hi]. by rewrite Nat.sub_0_r in Hi.
  - intros j Hj.
    assert (Hin : j ∈ positions_from 0 name cols).
    { apply elem_of_positions_from. split; [lia|]. by rewrite Nat.sub_0_r. }
    rewrite Hpos in Hin. by apply list_elem_of_singleton in Hin.
Qed.


Section LoaderRows.
Variable parse_date : cell -> option Date.

(** X1.  The letter case of the header is of no consequence: the file with
    its column names lower-cased loads to the same result. *)
Theorem header_case_irrelevant (cols : list string) (rs : list (list cell)) :
  load_data parse_date (mkRaw (lower <$> cols) rs) = load_data parse_date (mkRaw cols rs).
Proof.
  unfold load_data. simpl.
  assert (Hcols : lower <$> (lower <$> cols) = lower <$> cols).
  { rewrite <- list_fmap_compose. apply list_fmap_ext. intros _ c _.
    apply lower_idem. }
  by rewrite Hcols.
Qed.


(** X3.  The load fails as a whole on one bad cell: when it succeeds, no row
    has text in an [amount] column, and every non-empty cell of a [date]
    column is accepted by the date parser. *)
Theorem load_all_or_nothing (df : RawFrame) (tbl : list Row) :
  load_data parse_date df = inr tbl ->
  forall i r, r ∈ raw_rows df ->
    ((lower <$> raw_columns df) !! i = Some "amount" ->
     forall s, get_cell i r <> Text s)
    /\ ((lower <$> raw_columns df) !! i = Some "date" ->
        get_cell i r = NaN \/ is_Some (parse_date (get_cell i r))).
Proof.
  intros Hload i r Hr.
  destruct (load_data_inr parse_date df tbl Hload) as (idate & iamount & Hd & Ha & _ & Hrows).
  apply list_elem_of_lookup in Hr as [k Hk].
  destruct (Forall2_lookup_l _ _ _ _ _ Hrows Hk) as (row & _ & d & a & Hdate & Hamount & _).
  apply column_position_inr in Hd as [_ Hd], Ha as [_ Ha]. split.
  - intros Hi s Hs. rewrite (Ha i Hi) in Hs. by rewrite Hs in Hamount.
  - intros Hi. rewrite (Hd i Hi). unfold to_datetime in Hdate.
    destruct (get_cell idate r) as [s|z|] eqn:Hcell; [| |by left]; right;
      destruct (parse_date _); done.
Qed.

End LoaderRows.

(** ** The orders of the group keys are total orders *)

Lemma string_leb_trans (a b c : string) :
  String.leb a b = true -> String.leb b c = true -> String.leb a c = true.
Proof.
  unfold String.leb. revert b c.
  induction a as [|x a IH]; intros [|y b] [|z c]; simpl; try done.
  unfold Ascii.compare.
  destruct (N.compare_spec (N_of_ascii x) (N_of_ascii y)) as [Hxy|Hxy|Hxy],
    (N.compare_spec (N_of_ascii y) (N_of_ascii z)) as [Hyz|Hyz|Hyz],
    (N.compare_spec (N_of_ascii x) (N_of_ascii z)) as [Hxz|Hxz|Hxz];
    try done; try lia.
  apply IH.
Qed.

Lemma cell_leb_total (a b : cell) : cell_leb a b = true \/ cell_leb b a = true.
Proof.
  destruct a, b; simpl; auto; [apply String.leb_total|lia].
Qed.

Lemma cell_leb_trans (a b c : cell) :
  cell_leb a b = true -> cell_leb b c = true -> cell_leb a c = true.
Proof.
  destruct a, b, c; simpl; try done; [apply string_leb_trans|lia].
Qed.

Lemma cell_leb_antisym (a b : cell) :
  cell_leb a b = true -> cell_leb b a = true -> a = b.
Proof.
  destruct a, b; simpl; try done.
  - intros H1 H2. f_equal. by apply String.leb_antisym.
  - intros H1 H2. f_equal. lia.
Qed.

Lemma month_type_leb_total (a b : Date * string) :
  month_type_leb a b = true \/ month_type_leb b a = true.
Proof.
  unfold month_type_leb.
  destruct (decide (a.1 = b.1)) as [Heq|Hne].
  - rewrite decide_True by done. apply String.leb_total.
  - rewrite decide_False by done. apply date_leb_total.
Qed.

Lemma month_type_leb_trans (a b c : Date * string) :
  month_type_leb a b = true -> month_type_leb b c = true ->
  month_type_leb a c = true.
Proof.
  unfold month_type_leb.
  destruct (decide (a.1 = b.1)) as [Hab|Hab], (decide (b.1 = c.1)) as [Hbc|Hbc].
  - rewrite decide_True by congruence. apply string_leb_trans.
  - rewrite decide_False by congruence. rewrite Hab. done.
  - rewrite decide_False by congruence. rewrite <- Hbc. done.
  - intros H1 H2. destruct (decide (a.1 = c.1)) as [Hac|Hac].
    + exfalso. apply Hab. rewrite Hac in H1 |- *. by apply date_leb_antisym.
    + by eapply date_leb_trans.
Qed.

Lemma month_type_leb_antisym (a b : Date * string) :
  month_type_leb a b = true -> month_type_leb b a = true -> a = b.
Proof.
  unfold month_type_leb. destruct a as [ma ta], b as [mb tb]. simpl.
  destruct (decide (ma = mb)) as [->|Hne].
  - rewrite decide_True by done. intros H1 H2. f_equal.
    by apply String.leb_antisym.
  - rewrite decide_False by congruence. intros H1 H2.
    exfalso. apply Hne. by apply date_leb_antisym.
Qed.

(** ** The order of the rows of the table *)

Lemma stable_sort_sorted_id {A K : Type} (key : A -> K) (leb : K -> K -> bool)
    (l : list A) :
  StronglySorted (key_le key leb) l -> stable_sort key leb l = l.
Proof.
  induction 1 as [|x l Hl IH Hx]; [done|].
  simpl. rewrite IH. destruct l as [|y l]; [done|].
  simpl. apply Forall_cons in Hx as [Hxy _]. unfold key_le in Hxy. by rewrite Hxy.
Qed.

Section SortUnique.
Context {K : Type} `{EqDecision K} (leb : K -> K -> bool).
Hypothesis leb_total : forall a b, leb a b = true \/ leb b a = true.
Hypothesis leb_trans : forall a b c, leb a b = true -> leb b c = true -> leb a c = true.
Hypothesis leb_antisym : forall a b, leb a b = true -> leb b a = true -> a = b.

Lemma stable_sort_Permutation_eq (l l' : list K) :
  l ≡ₚ l' -> stable_sort id leb l = stable_sort id leb l'.
Proof.
  intros Hperm.
  apply (StronglySorted_unique_strong (key_le id leb)).
  - intros a b _ _. apply leb_antisym.
  - by apply stable_sort_StronglySorted.
  - by apply stable_sort_StronglySorted.
  - by rewrite !stable_sort_Permutation.
Qed.

Lemma remove_dups_Permutation (l l' : list K) :
  l ≡ₚ l' -> remove_dups l ≡ₚ remove_dups l'.
Proof.
  intros Hperm. apply NoDup_Permutation; [apply NoDup_remove_dups..|].
  intros k. by rewrite !elem_of_remove_dups, Hperm.
Qed.

Lemma groupby_sum_Permutation (key : Row -> option K) (df df' : list Row) :
  df ≡ₚ df' -> groupby_sum leb key df = groupby_sum leb key df'.
Proof.
  intros Hperm. unfold groupby_sum.
  assert (Hkeys : group_keys leb key df = group_keys leb key df').
  { unfold group_keys. apply stable_sort_Permutation_eq, remove_dups_Permutation.
    by rewrite Hperm. }
  rewrite Hkeys. apply list_fmap_ext. intros _ k _. f_equal.
  unfold group_sum. apply zsum_Permutation. by rewrite Hperm.
Qed.

Lemma group_keys_sorted (key : Row -> option K) (df : list Row) :
  StronglySorted (key_le id leb) (group_keys leb key df).
Proof. by apply stable_sort_StronglySorted. Qed.

End SortUnique.

(** X4.  The order of the rows of the table decides neither the columns and
    the months of the monthly series nor which categories the category
    series has.  (The values are sums over the rows in their order.) *)
Theorem row_order_irrelevant (df df' : list Row) :
  df ≡ₚ df' ->
  columns <$> monthly_trends df = columns <$> monthly_trends df'
  /\ (fun f => fst <$> rows f) <$> monthly_trends df
     = (fun f => fst <$> rows f) <$> monthly_trends df'
  /\ fst <$> category_breakdown df ≡ₚ fst <$> category_breakdown df'.
Proof.
  intros Hperm.
  assert (Hm : monthly_trends df = monthly_trends df').
  { unfold monthly_trends.
    by rewrite (groupby_sum_Permutation month_type_leb month_type_leb_total
                  month_type_leb_trans month_type_leb_antisym month_type_key df df' Hperm). }
  assert (Hc : category_breakdown df = category_breakdown df').
  { unfold category_breakdown.
    rewrite (groupby_sum_Permutation cell_leb cell_leb_total cell_leb_trans
               cell_leb_antisym category_key
               (filter (fun r => lt0 (amount r)) df)
               (filter (fun r => lt0 (amount r)) df')); [done|].
    by rewrite Hperm. }
  by rewrite Hm, Hc.
Qed.

Lemma row_order_irrelevant_witness :
  example_table ≡ₚ reverse example_table
  /\ columns <$> monthly_trends example_table
     = columns <$> monthly_trends (reverse example_table)
  /\ (fun f => fst <$> rows f) <$> monthly_trends example_table
     = (fun f => fst <$> rows f) <$> monthly_trends (reverse example_table)
  /\ fst <$> category_breakdown example_table
     ≡ₚ fst <$> category_breakdown (reverse example_table).
Proof.
  assert (H : example_table ≡ₚ reverse example_table)
    by (symmetry; apply reverse_Permutation).
  split; [exact H|]. apply (row_order_irrelevant _ _ H).
Defined.

(** ** The order of the category series *)

Section SortLex.
Context {A K : Type} (key : A -> K) (leb : K -> K -> bool) (R : relation A).
Hypothesis leb_total : forall a b, leb a b = true \/ leb b a = true.
Hypothesis leb_trans : forall a b c, leb a b = true -> leb b c = true -> leb a c = true.

Lemma insert_sorted_lex (x : A) (l : list A) :
  Forall (R x) l ->
  StronglySorted (lex_le key leb R) l ->
  StronglySorted (lex_le key leb R) (insert_sorted key leb x l).
Proof.
  intros HR Hs. induction Hs as [|y l Hl IH Hy]; simpl.
  - repeat constructor.
  - apply Forall_cons in HR as [HRy HR].
    destruct (leb (key x) (key y)) eqn:Hxy.
    + constructor; [by constructor|].
      constructor; [by split|].
      rewrite Forall_forall in HR, Hy. apply Forall_forall. intros z Hz.
      split; [|intros _; by apply HR].
      destruct (Hy z Hz) as [Hyz _]. unfold key_le in *. eauto.
    + constructor; [by apply IH|].
      rewrite insert_sorted_Permutation. constructor; [|done].
      split.
      * unfold key_le. destruct (leb_total (key x) (key y)); congruence.
      * unfold key_le. congruence.
Qed.

Lemma stable_sort_lex (l : list A) :
  StronglySorted R l -> StronglySorted (lex_le key leb R) (stable_sort key leb l).
Proof.
  induction 1 as [|x l Hl IH Hx]; simpl; [constructor|].
  apply insert_sorted_lex; [|done]. by rewrite stable_sort_Permutation.
Qed.

End SortLex.

Lemma groupby_sum_sorted (df : list Row) :
  StronglySorted (fun a b : cell * Z => cell_leb a.1 b.1 = true)
    (groupby_sum cell_leb category_key df).
Proof.
  unfold groupby_sum.
  eapply StronglySorted_fmap;
    [|apply (group_keys_sorted cell_leb cell_leb_total cell_leb_trans)].
  intros a b Hab. exact Hab.
Qed.

Lemma category_breakdown_lex (df : list Row) :
  StronglySorted
    (lex_le (snd : cell * Z -> Z) Z.leb (fun a b : cell * Z => cell_leb a.1 b.1 = true))
    (category_breakdown df).
Proof.
  unfold category_breakdown, sort_values.
  apply stable_sort_lex; [apply Zleb_total|apply Zleb_trans|apply groupby_sum_sorted].
Qed.

Lemma category_series_order_aux (df : list Row) :
  StronglySorted (fun a b : cell * Z => a.2 <= b.2) (category_breakdown df).
Proof.
  eapply StronglySorted_weaken; [|apply category_breakdown_lex].
  intros a b _ _ [Hab _]. unfold key_le in Hab. lia.
Qed.

(** X5.  The category series comes most negative first: its values ascend,
    and no category occurs twice. *)
Theorem category_series_order (df : list Row) :
  StronglySorted (fun a b : cell * Z => a.2 <= b.2) (category_breakdown df)
  /\ NoDup (fst <$> category_breakdown df).
Proof.
  split; [apply category_series_order_aux|apply category_breakdown_NoDup].
Qed.

(** X6.  The category series is empty exactly when no expense row has a
    category; in particular for a table of income rows only. *)
Theorem category_series_empty (df : list Row) :
  (category_breakdown df = []
   <-> forall r, r ∈ df -> lt0 (amount r) -> category r = NaN)
  /\ ((forall r, r ∈ df -> ~ lt0 (amount r)) -> category_breakdown df = []).
Proof.
  assert (Hiff : category_breakdown df = []
                 <-> forall r, r ∈ df -> lt0 (amount r) -> category r = NaN).
  { split.
    - intros Hnil r Hr Hlt.
      destruct (decide (category r = NaN)) as [|Hc]; [done|]. exfalso.
      assert (Hin : (category r,
                     zsum (omap amount
                             (filter (fun r' => category r' = category r
                                                /\ lt0 (amount r')) df)))
                    ∈ category_breakdown df).
      { apply elem_of_category_breakdown. eauto 6. }
      rewrite Hnil in Hin. by apply elem_of_nil in Hin.
    - intros Hall. destruct (category_breakdown df) as [|[c v] l] eqn:Hcb; [done|].
      assert (Hin : (c, v) ∈ category_breakdown df) by (rewrite Hcb; by left).
      apply elem_of_category_breakdown in Hin as (Hnan & _ & r & Hr & Hlt & Hc).
      exfalso. apply Hnan. rewrite <- Hc. by apply Hall. }
  split; [exact Hiff|].
  intros Hno. apply Hiff. intros r Hr Hlt. by destruct (Hno r Hr).
Qed.

(** ** Ranking a series that is already ranked *)

Lemma full_ranking_sorted_id {L : Type} (s : Series L) :
  StronglySorted (fun a b : L * Z => a.2 <= b.2) s ->
  Forall (fun e => e.2 <= 0) s ->
  full_ranking s = s.
Proof.
  intros Hs Hneg. unfold full_ranking, sort_values_desc.
  assert (Habs : StronglySorted (flip (key_le (snd : L * Z -> Z) Z.leb))
                   (series_abs s)).
  { unfold series_abs. rewrite Forall_forall in Hneg.
    eapply StronglySorted_fmap with
      (R1 := fun a b : L * Z => a.2 <= b.2 /\ a.2 <= 0 /\ b.2 <= 0).
    - intros a b (Hab & Ha & Hb). unfold flip, key_le. simpl. lia.
    - eapply StronglySorted_weaken; [|exact Hs].
      intros a b Ha Hb Hab. split; [done|]. split; by apply Hneg. }
  apply StronglySorted_reverse in Habs.
  rewrite (stable_sort_sorted_id _ _ (reverse (series_abs s))).
  2:{ eapply StronglySorted_weaken; [|exact Habs]. intros a b _ _ H. exact H. }
  rewrite reverse_involutive. unfold series_mul, series_abs.
  rewrite <- list_fmap_compose.
  rewrite <- (list_fmap_id s) at 2. apply Forall_fmap_ext_1.
  eapply Forall_impl; [exact Hneg|].
  intros [c v] Hv. simpl in *. f_equal. lia.
Qed.

Lemma category_breakdown_nonpos (df : list Row) :
  Forall (fun e => e.2 <= 0) (category_breakdown df).
Proof.
  apply Forall_forall. intros [c v] Hin. simpl.
  apply elem_of_category_breakdown in Hin as (_ & -> & _).
  assert (H : forall l : list Row,
            zsum (omap amount (filter (fun r => category r = c /\ lt0 (amount r)) l))
            <= 0).
  { induction l as [|r l IH]; [done|].
    rewrite filter_cons. destruct (decide _) as [[_ Hlt]|_]; [|done].
    rewrite omap_amount_cons. destruct (amount r) as [z|]; simpl in *; [|lia].
    apply Is_true_true in Hlt. apply Z.ltb_lt in Hlt. lia. }
  apply H.
Qed.

(** X7.  Ranked again by absolute spend, the series [category_breakdown]
    returns keeps its values in place: the values of [top10] are the first
    ten values of the series, the values of [top5] its first five, rounded,
    and every entry of [top10] is an entry of the series. *)
Theorem ranking_of_category_breakdown (df : list Row) (m : Frame) (charts : Charts)
    (summary : Summary) :
  save_charts m (category_breakdown df) = Some charts ->
  write_summary m (category_breakdown df) = Some summary ->
  snd <$> top10 charts = snd <$> take 10 (category_breakdown df)
  /\ snd <$> top5 summary = round2 <$> (snd <$> take 5 (category_breakdown df))
  /\ forall e, e ∈ top10 charts -> e ∈ category_breakdown df.
Proof.
  intros Hc Hs. unfold save_charts in Hc. unfold write_summary in Hs.
  destruct (getitem "income" m) as [income|]; [|done].
  destruct (getitem "expense" m) as [expense|]; [|done].
  destruct (getitem "net" m) as [net|]; [|done].
  cbn -[series_mul head sort_values_desc series_abs series_round2 cumsum zsum]
    in Hc, Hs.
  rewrite !top_as_take in Hc, Hs. injection Hc as <-. injection Hs as <-.
  cbn [top10 top5].
  rewrite full_ranking_sorted_id;
    [|apply category_series_order_aux|apply category_breakdown_nonpos].
  split; [done|]. split.
  - unfold series_round2. by rewrite <- !list_fmap_compose.
  - intros e He. apply list_elem_of_lookup in He as [i Hi].
    eapply list_elem_of_lookup_2, lookup_take_Some, Hi.
Qed.

(** ** Sums by type and sign *)

Lemma month_total_type_group (t : string) (m : Date) (df : list Row) :
  month_total t m df = group_sum (type_month t) df m.
Proof.
  unfold month_total, group_sum. do 2 f_equal. apply list_filter_iff.
  intros r. unfold type_month. destruct (decide (type r = t)).
  - tauto.
  - split; [tauto|done].
Qed.

Lemma ge0_Some (z : Z) : ge0 (Some z) <-> 0 <= z.
Proof. simpl. by rewrite Is_true_true, Z.leb_le. Qed.

Lemma lt0_Some (z : Z) : lt0 (Some z) <-> z < 0.
Proof. simpl. by rewrite Is_true_true, Z.ltb_lt. Qed.

(** ** The cumulative series *)




(** ** The run as a whole *)

Lemma positions_from_NoDup (k : nat) (name : string) (cols : list string) :
  NoDup (positions_from k name cols).
Proof.
  revert k. induction cols as [|c cols IH]; intros k; simpl; [constructor|].
  destruct (String.eqb c name); [|apply IH].
  constructor; [|apply IH].
  intros [Hle _]%elem_of_positions_from. lia.
Qed.

(** A key that the group-by refuses names two columns of the frame. *)
Lemma grouper_ok_false (name : string) (cols : list string) :
  grouper_ok name cols = false ->
  exists i j, i <> j /\ cols !! i = Some name /\ cols !! j = Some name.
Proof.
  unfold grouper_ok. intros Hlen%bool_decide_eq_false.
  pose proof (positions_from_NoDup 0 name cols) as Hnd.
  destruct (positions_from 0 name cols) as [|i [|j l]] eqn:Hpos; simpl in Hlen; try lia.
  exists i, j.
  assert (Hi : i ∈ positions_from 0 name cols) by (rewrite Hpos; set_solver).
  assert (Hj : j ∈ positions_from 0 name cols) by (rewrite Hpos; set_solver).
  apply elem_of_positions_from in Hi as [_ Hi], Hj as [_ Hj].
  rewrite Nat.sub_0_r in Hi, Hj. split; [|done].
  intros ->. apply NoDup_cons in Hnd as [Hnd _]. apply Hnd. by left.
Qed.

(** X11.  A run fails in [load_data], or at a group-by whose key ([month],
    [type] or [category]) names two columns of the file, and nowhere else in
    the computation: when the load succeeds and none of the three names two
    columns, every later step finds its columns and the run returns the
    series computed from the loaded table. *)
Theorem run_failures (parse_date : cell -> option Date) (csv : RawFrame) :
  main parse_date csv <> inl KeyOrLengthError
  /\ (forall e, main parse_date csv = inl (LoadFailed e)
                <-> load_data parse_date csv = inl e)
  /\ (forall name, main parse_date csv = inl (GrouperError name) ->
        (exists df, load_data parse_date csv = inr df)
        /\ name ∈ ["month"; "type"; "category"]
        /\ exists i j, i <> j
                       /\ (lower <$> raw_columns csv) !! i = Some name
                       /\ (lower <$> raw_columns csv) !! j = Some name)
  /\ (forall df, load_data parse_date csv = inr df ->
        (forall name, name ∈ ["month"; "type"; "category"] ->
                      grouper_ok name (lower <$> raw_columns csv) = true) ->
        exists out,
          main parse_date csv = inr out
          /\ monthly_trends df = Some (out_monthly out)
          /\ out_by_cat out = category_breakdown df
          /\ save_charts (out_monthly out) (out_by_cat out) = Some (out_charts out)
          /\ write_summary (out_monthly out) (out_by_cat out) = Some (out_summary out)).
Proof.
  unfold main.
  destruct (load_data parse_date csv) as [e|df] eqn:Hload.
  { split; [done|]. split; [|split; [done|done]].
    intros e'. split; congruence. }
  destruct (monthly_trends_spec df (load_data_validated _ _ _ Hload))
    as (f & Hf & _ & Hinc & Hexp & Hnet & _).
  rewrite Hf.
  destruct (reporter_returns f (category_breakdown df) _ _ _
              (getitem_column_is _ _ _ Hinc) (getitem_column_is _ _ _ Hexp)
              (getitem_column_is _ _ _ Hnet)) as [Hcharts Hsummary].
  rewrite Hcharts, Hsummary.
  destruct (grouper_ok "month" _) eqn:Hm; simpl.
  2:{ split; [done|]. split; [done|]. split.
      - intros name [= <-]. split; [eauto|]. split; [set_solver|].
        by apply grouper_ok_false.
      - intros df' _ Hall. rewrite Hall in Hm by set_solver. done. }
  destruct (grouper_ok "type" _) eqn:Ht; simpl.
  2:{ split; [done|]. split; [done|]. split.
      - intros name [= <-]. split; [eauto|]. split; [set_solver|].
        by apply grouper_ok_false.
      - intros df' _ Hall. rewrite Hall in Ht by set_solver. done. }
  destruct (grouper_ok "category" _) eqn:Hc; simpl.
  2:{ split; [done|]. split; [done|]. split.
      - intros name [= <-]. split; [eauto|]. split; [set_solver|].
        by apply grouper_ok_false.
      - intros df' _ Hall. rewrite Hall in Hc by set_solver. done. }
  split; [done|]. split; [done|]. split; [done|].
  intros df' [= <-] _. eexists. split; [reflexivity|]. cbn.
  split; [exact Hf|]. split; [done|]. split; [exact Hcharts|exact Hsummary].
Qed.

(** ** Rounding in the report *)





(** ** Witnesses *)


Lemma load_all_or_nothing_witness :
  load_data iso_date example_csv = inr example_table
  /\ forall i r, r ∈ raw_rows example_csv ->
       ((lower <$> raw_columns example_csv) !! i = Some "amount" ->
        forall s, get_cell i r <> Text s)
       /\ ((lower <$> raw_columns example_csv) !! i = Some "date" ->
           get_cell i r = NaN \/ is_Some (iso_date (get_cell i r))).
Proof.
  split; [exact example_table_loaded|].
  apply (load_all_or_nothing iso_date example_csv example_table example_table_loaded).
Defined.

(** The charts and the summary of the example. *)
Lemma example_reports :
  save_charts example_monthly (category_breakdown example_table)
  = Some (mkCharts
            ([jan_2024; feb_2024],
             ([dollars 2000; dollars 0], [dollars (-50); dollars (-30)],
              [dollars 1950; dollars (-30)]))
            [(Text "Food", dollars (-80))] [dollars 1950; dollars 1920])
  /\ write_summary example_monthly (category_breakdown example_table)
     = Some (mkSummary (dollars 2000) (dollars (-80)) (dollars 1920)
               [(Text "Food", dollars (-80))]).
Proof. split; vm_compute; reflexivity. Qed.

Lemma ranking_of_category_breakdown_witness :
  save_charts example_monthly (category_breakdown example_table)
  = Some (mkCharts
            ([jan_2024; feb_2024],
             ([dollars 2000; dollars 0], [dollars (-50); dollars (-30)],
              [dollars 1950; dollars (-30)]))
            [(Text "Food", dollars (-80))] [dollars 1950; dollars 1920])
  /\ write_summary example_monthly (category_breakdown example_table)
     = Some (mkSummary (dollars 2000) (dollars (-80)) (dollars 1920)
               [(Text "Food", dollars (-80))])
  /\ snd <$> [(Text "Food", dollars (-80))]
     = snd <$> take 10 (category_breakdown example_table)
  /\ snd <$> [(Text "Food", dollars (-80))]
     = round2 <$> (snd <$> take 5 (category_breakdown example_table))
  /\ forall e, e ∈ [(Text "Food", dollars (-80))] ->
                e ∈ category_breakdown example_table.
Proof.
  split; [exact (proj1 example_reports)|]. split; [exact (proj2 example_reports)|].
  exact (ranking_of_category_breakdown example_table example_monthly _ _
           (proj1 example_reports) (proj2 example_reports)).
Defined.


(** ** The columns of the monthly frame *)

Lemma setitem_columns_new (name : string) (vals : list Z) (f f' : Frame) :
  setitem name vals f = Some f' -> name ∉ columns f ->
  columns f' = columns f ++ [name].
Proof.
  unfold setitem. intros Hset Hnew.
  destruct (decide (length vals = length (rows f))); [|done].
  apply index_of_None in Hnew. rewrite Hnew in Hset. by injection Hset as <-.
Qed.

Lemma ensure_columns (name : string) (f f' : Frame) :
  (if decide (name ∈ columns f) then Some f else setitem_scalar name 0 f) = Some f' ->
  columns f' = if decide (name ∈ columns f) then columns f else columns f ++ [name].
Proof.
  destruct (decide (name ∈ columns f)) as [Hin|Hnin].
  - by intros [= <-].
  - intros Hset. by eapply setitem_columns_new.
Qed.

(** The columns [unstack] makes of the types of a validated table. *)
Lemma unstack_columns_cases (df : list Row) :
  validated df ->
  columns (unstack 0 (groupby_sum month_type_leb month_type_key df))
  = (if decide (Exists (fun r => is_Some (month r) /\ type r = "expense") df)
     then ["expense"] else [])
    ++ (if decide (Exists (fun r => is_Some (month r) /\ type r = "income") df)
        then ["income"] else []).
Proof.
  intros Hval. unfold validated in Hval. rewrite Forall_forall in Hval.
  set (s := groupby_sum month_type_leb month_type_key df).
  set (T := remove_dups ((fun e : Date * string * Z => e.1.2) <$> s)).
  assert (Hmem : forall t, t ∈ T <-> exists r, r ∈ df /\ is_Some (month r) /\ type r = t).
  { intros t. unfold T. rewrite elem_of_remove_dups, list_elem_of_fmap. split.
    - intros ([[m t'] v] & -> & Hin). simpl.
      apply elem_of_groupby_sum in Hin as (_ & r & Hr & Hk).
      apply month_type_key_Some in Hk as [Hm <-]. exists r. by rewrite Hm.
    - intros (r & Hr & [m Hm] & <-).
      exists ((m, type r), group_sum month_type_key df (m, type r)).
      split; [done|]. apply elem_of_groupby_sum. split; [done|].
      exists r. split; [done|]. by apply month_type_key_Some. }
  assert (Htwo : forall t, t ∈ T -> t = "expense" \/ t = "income").
  { intros t Ht. apply Hmem in Ht as (r & Hr & _ & <-).
    destruct (Hval r Hr) as [-> _]. destruct (type_of_cases (amount r)); auto. }
  set (L := (if decide (Exists (fun r => is_Some (month r) /\ type r = "expense") df)
             then ["expense"] else [])
            ++ (if decide (Exists (fun r => is_Some (month r) /\ type r = "income") df)
                then ["income"] else [])).
  assert (HL : forall t, t ∈ L <-> t ∈ T).
  { intros t. unfold L. rewrite elem_of_app. split.
    - intros [Ht|Ht].
      + destruct (decide (Exists (fun r => is_Some (month r) /\ type r = "expense") df))
          as [Hex|]; [|by apply elem_of_nil in Ht].
        apply list_elem_of_singleton in Ht as ->. apply Hmem.
        by apply Exists_exists in Hex.
      + destruct (decide (Exists (fun r => is_Some (month r) /\ type r = "income") df))
          as [Hex|]; [|by apply elem_of_nil in Ht].
        apply list_elem_of_singleton in Ht as ->. apply Hmem.
        by apply Exists_exists in Hex.
    - intros Ht. destruct (Htwo t Ht) as [-> | ->]; apply Hmem in Ht.
      + left. rewrite decide_True by (by apply Exists_exists). by left.
      + right. rewrite decide_True by (by apply Exists_exists). by left. }
  assert (Hperm : T ≡ₚ L).
  { apply NoDup_Permutation; [apply NoDup_remove_dups| |by intros t; rewrite HL].
    unfold L. destruct (decide _), (decide _); simpl;
      repeat constructor; rewrite ?not_elem_of_cons; try apply not_elem_of_nil.
    split; [done|apply not_elem_of_nil]. }
  change (columns (unstack 0 s)) with (stable_sort id String.leb T).
  rewrite (stable_sort_Permutation_eq String.leb String.leb_total string_leb_trans
             String.leb_antisym T L Hperm).
  unfold L. destruct (decide _), (decide _); reflexivity.
Qed.

(** X14.  The monthly frame has exactly the columns [income], [expense] and
    [net], with [net] last and three values in every row; [expense] comes
    first when some dated row is an expense and [income] otherwise; and the
    frame has no rows when no row of the table has a date, as for the empty
    table. *)
Theorem monthly_frame_shape (df : list Row) :
  validated df ->
  exists f,
    monthly_trends df = Some f
    /\ Forall (fun row => length row.2 = 3%nat) (rows f)
    /\ ((exists r, r ∈ df /\ is_Some (month r) /\ type r = "expense") ->
        columns f = ["expense"; "income"; "net"])
    /\ ((forall r, r ∈ df -> is_Some (month r) -> type r <> "expense") ->
        columns f = ["income"; "expense"; "net"])
    /\ ((forall r, r ∈ df -> month r = None) ->
        f = mkFrame ["income"; "expense"; "net"] []).
Proof.
  intros Hval.
  destruct (monthly_trends_spec df Hval)
    as (f & Hf & Hwf & _ & _ & _ & Hidx & _).
  exists f. split; [done|].
  pose proof (unstack_columns_cases df Hval) as Hcols0.
  assert (Hcols : columns f
            = if decide (Exists (fun r => is_Some (month r) /\ type r = "expense") df)
              then ["expense"; "income"; "net"] else ["income"; "expense"; "net"]).
  { pose proof Hf as Hrun. unfold monthly_trends in Hrun.
    set (m0 := unstack 0 (groupby_sum month_type_leb month_type_key df)) in *.
    destruct (if decide ("income" ∈ columns m0) then Some m0
              else setitem_scalar "income" 0 m0) as [m1|] eqn:H1; [|done].
    cbn [mbind option_bind] in Hrun.
    destruct (if decide ("expense" ∈ columns m1) then Some m1
              else setitem_scalar "expense" 0 m1) as [m2|] eqn:H2; [|done].
    cbn [mbind option_bind] in Hrun.
    destruct (getitem "income" (sort_index m2)) as [income|]; [|done].
    cbn [mbind option_bind] in Hrun.
    destruct (getitem "expense" (sort_index m2)) as [expense|]; [|done].
    cbn [mbind option_bind] in Hrun.
    apply ensure_columns in H1, H2.
    assert (Hc2 : columns m2
              = if decide (Exists (fun r => is_Some (month r) /\ type r = "expense") df)
                then ["expense"; "income"] else ["income"; "expense"]).
    { rewrite H2, H1, Hcols0.
      destruct (decide (Exists (fun r => is_Some (month r) /\ type r = "expense") df)),
        (decide (Exists (fun r => is_Some (month r) /\ type r = "income") df));
        reflexivity. }
    apply setitem_columns_new in Hrun.
    - rewrite Hrun. unfold sort_index. simpl. rewrite Hc2.
      by destruct (decide _).
    - unfold sort_index. simpl. rewrite Hc2.
      destruct (decide _); rewrite !not_elem_of_cons;
        repeat split; try done; apply not_elem_of_nil. }
  split; [|split; [|split]].
  - unfold frame_wf in Hwf. eapply Forall_impl; [exact Hwf|].
    intros row Hrow. simpl in Hrow. rewrite Hrow, Hcols. by destruct (decide _).
  - intros Hex. rewrite Hcols, decide_True; [done|]. by apply Exists_exists.
  - intros Hno. rewrite Hcols, decide_False; [done|].
    intros (r & Hr & Hm & Ht)%Exists_exists. by eapply Hno.
  - intros Hno. destruct f as [cols rs]. simpl in *. f_equal.
    + rewrite Hcols, decide_False; [done|].
      intros (r & Hr & [m Hm] & _)%Exists_exists. by rewrite (Hno r Hr) in Hm.
    + assert (Hm : months_of df = []).
      { unfold months_of. clear -Hno. induction df as [|r df IH]; [done|].
        change (omap month (r :: df))
          with (match month r with Some y => y :: omap month df | None => omap month df end).
        rewrite (Hno r) by (by left). apply IH. intros r' Hr'. apply Hno. by right. }
      rewrite Hm in Hidx. simpl in Hidx. apply Permutation_nil_r in Hidx.
      by destruct rs.
Qed.

Lemma monthly_frame_shape_witness :
  validated example_table
  /\ exists f,
       monthly_trends example_table = Some f
       /\ Forall (fun row => length row.2 = 3%nat) (rows f)
       /\ ((exists r, r ∈ example_table /\ is_Some (month r) /\ type r = "expense") ->
           columns f = ["expense"; "income"; "net"])
       /\ ((forall r, r ∈ example_table -> is_Some (month r) -> type r <> "expense") ->
           columns f = ["income"; "expense"; "net"])
       /\ ((forall r, r ∈ example_table -> month r = None) ->
           f = mkFrame ["income"; "expense"; "net"] []).
Proof.
  split; [exact example_table_validated|].
  apply (monthly_frame_shape example_table example_table_validated).
Defined.

(** ** A row without an amount *)

(** X15.  A row whose amount cell is empty is typed as an expense; it adds
    nothing to any monthly value and is absent from the category series, but
    when it has a date its month still has a row in the monthly series. *)
Theorem missing_amount_row (l1 l2 : list Row) (r : Row) :
  validated (l1 ++ r :: l2) ->
  amount r = None ->
  type r = "expense"
  /\ category_breakdown (l1 ++ r :: l2) = category_breakdown (l1 ++ l2)
  /\ exists f,
       monthly_trends (l1 ++ r :: l2) = Some f
       /\ (forall row, row ∈ rows f ->
             row_value f "income" row = Some (month_total "income" row.1 (l1 ++ l2))
             /\ row_value f "expense" row
                = Some (month_total "expense" row.1 (l1 ++ l2)))
       /\ (forall m, month r = Some m -> m ∈ fst <$> rows f).
Proof.
  intros Hval Ha.
  assert (Hty : type r = "expense").
  { unfold validated in Hval. rewrite Forall_forall in Hval.
    destruct (Hval r) as [-> _]; [apply elem_of_app; right; by left|].
    by rewrite Ha. }
  split; [done|]. split.
  - unfold category_breakdown. rewrite !filter_app, filter_cons_False; [done|].
    rewrite Ha. simpl. tauto.
  - destruct (monthly_trends_spec _ Hval)
      as (f & Hf & _ & Hinc & Hexp & _ & Hidx & _).
    assert (Hsame : forall t m,
              month_total t m (l1 ++ r :: l2) = month_total t m (l1 ++ l2)).
    { intros t m. change (r :: l2) with ([r] ++ l2). rewrite !month_total_app.
      assert (Hr : month_total t m [r] = 0).
      { unfold month_total. rewrite filter_cons.
        destruct (decide _); [|done]. by rewrite omap_amount_cons, Ha. }
      lia. }
    exists f. split; [done|]. split.
    + intros row Hrow.
      rewrite (row_value_column_is _ _ _ _ Hinc Hrow),
        (row_value_column_is _ _ _ _ Hexp Hrow).
      by rewrite !Hsame.
    + intros m Hm. rewrite Hidx, elem_of_remove_dups. unfold months_of.
      apply list_elem_of_omap. exists r. split; [|done].
      apply elem_of_app. right. by left.
Qed.

Lemma missing_amount_row_witness :
  validated (example_table ++ no_amount_row :: [])
  /\ amount no_amount_row = None
  /\ category_breakdown (example_table ++ no_amount_row :: [])
     = category_breakdown (example_table ++ [])
  /\ exists f,
       monthly_trends (example_table ++ no_amount_row :: []) = Some f
       /\ (forall row, row ∈ rows f ->
             row_value f "income" row
             = Some (month_total "income" row.1 (example_table ++ []))
             /\ row_value f "expense" row
                = Some (month_total "expense" row.1 (example_table ++ [])))
       /\ (forall m, month no_amount_row = Some m -> m ∈ fst <$> rows f).
Proof.
  assert (Hv : validated (example_table ++ no_amount_row :: []))
    by (unfold validated; repeat constructor).
  destruct (missing_amount_row example_table [] no_amount_row Hv eq_refl)
    as (_ & H1 & H2).
  split; [exact Hv|]. split; [reflexivity|]. split; [exact H1|exact H2].
Defined.

(** ** The signs of the monthly series *)



(** * The aggregation in binary floating point *)

(** ** Frames of floats *)

Lemma zip_with_Forall {A B C : Type} (P : C -> Prop) (g : A -> B -> C)
    (l : list A) (k : list B) :
  (forall a b, a ∈ l -> P (g a b)) -> Forall P (zip_with g l k).
Proof.
  revert k. induction l as [|a l IH]; intros [|b k] Hg; simpl; try constructor.
  - apply Hg. by left.
  - apply IH. intros a' b' Ha'. apply Hg. by right.
Qed.

Lemma fmap_zip_with_l {A B C D : Type} (h : C -> D) (g : A -> B -> C) (h' : A -> D)
    (l : list A) (k : list B) :
  length k = length l ->
  (forall a b, a ∈ l -> h (g a b) = h' a) ->
  h <$> zip_with g l k = h' <$> l.
Proof.
  revert k. induction l as [|a l IH]; intros [|b k] Hlen Hg; simpl in *; try done.
  rewrite Hg by (by left). f_equal. apply IH; [lia|].
  intros a' b' Ha'. apply Hg. by right.
Qed.

Lemma fmap_zip_with_r {A B C : Type} (h : C -> B) (g : A -> B -> C)
    (l : list A) (k : list B) :
  length k = length l ->
  (forall a b, a ∈ l -> h (g a b) = b) ->
  h <$> zip_with g l k = k.
Proof.
  revert k. induction l as [|a l IH]; intros [|b k] Hlen Hg; simpl in *; try done.
  rewrite Hg by (by left). f_equal. apply IH; [lia|].
  intros a' b' Ha'. apply Hg. by right.
Qed.

Lemma F64_getitem_length (name : string) (f : F64.Frame) (l : list float) :
  F64.getitem name f = Some l -> length l = length (F64.rows f).
Proof.
  unfold F64.getitem. destruct (index_of name (F64.columns f)); simpl; [|done].
  intros [= <-]. apply length_fmap.
Qed.

Lemma F64_getitem_elem (name : string) (f : F64.Frame) :
  name ∈ F64.columns f -> is_Some (F64.getitem name f).
Proof.
  intros [i Hi]%index_of_elem. unfold F64.getitem. rewrite Hi. simpl. eauto.
Qed.

(** The value of a column in a row is the entry of [getitem] at that row. *)
Lemma F64_row_value (name : string) (f : F64.Frame) (l : list float) (i : nat)
    (row : Date * list float) :
  F64.frame_wf f -> F64.getitem name f = Some l -> F64.rows f !! i = Some row ->
  exists x, F64.row_value f name row = Some x /\ l !! i = Some x.
Proof.
  unfold F64.frame_wf, F64.getitem, F64.row_value. intros Hwf Hget Hrow.
  destruct (index_of name (F64.columns f)) as [j|] eqn:Hj; simpl in *; [|done].
  injection Hget as <-. rewrite list_lookup_fmap, Hrow. simpl.
  rewrite Forall_forall in Hwf.
  pose proof (Hwf row (list_elem_of_lookup_2 _ _ _ Hrow)) as Hlen.
  apply index_of_Some, lookup_lt_Some in Hj.
  destruct (lookup_lt_is_Some_2 row.2 j) as [x Hx]; [lia|].
  exists x. split; [done|]. by rewrite nth_lookup, Hx.
Qed.

(** [frame[name] = vals] and [frame[name]] afterwards: the column holds
    [vals], the other columns and the index are as before. *)
Lemma F64_setitem_spec (name : string) (vals : list float) (f f' : F64.Frame) :
  F64.frame_wf f -> F64.setitem name vals f = Some f' ->
  F64.frame_wf f'
  /\ name ∈ F64.columns f'
  /\ (forall c, c ∈ F64.columns f -> c ∈ F64.columns f')
  /\ F64.getitem name f' = Some vals
  /\ (forall c, c <> name -> c ∈ F64.columns f -> F64.getitem c f' = F64.getitem c f)
  /\ fst <$> F64.rows f' = fst <$> F64.rows f.
Proof.
  unfold F64.frame_wf, F64.setitem. intros Hwf.
  destruct (decide (length vals = length (F64.rows f))) as [Hlen|]; [|done].
  rewrite Forall_forall in Hwf.
  destruct (index_of name (F64.columns f)) as [i|] eqn:Hi; intros [= <-]; simpl.
  - pose proof (index_of_Some _ _ _ Hi) as Hname.
    pose proof (lookup_lt_Some _ _ _ Hname) as Hlt.
    split; [|split; [|split; [|split; [|split]]]].
    + apply zip_with_Forall. intros r v Hr. simpl.
      rewrite length_insert. by apply Hwf.
    + by eapply list_elem_of_lookup_2.
    + done.
    + unfold F64.getitem. simpl. rewrite Hi. simpl. f_equal.
      apply fmap_zip_with_r; [done|]. intros r v Hr. simpl.
      rewrite nth_lookup, list_lookup_insert_eq; [done|].
      rewrite (Hwf r Hr). done.
    + intros c Hc Hin. unfold F64.getitem. simpl.
      destruct (index_of c (F64.columns f)) as [j|] eqn:Hj; simpl; [|done].
      f_equal. apply fmap_zip_with_l; [done|]. intros r v Hr. simpl.
      rewrite !nth_lookup, list_lookup_insert_ne; [done|].
      intros ->. apply index_of_Some in Hj. congruence.
    + apply fmap_zip_with_l; done.
  - apply index_of_None in Hi.
    split; [|split; [|split; [|split; [|split]]]].
    + apply zip_with_Forall. intros r v Hr. simpl.
      rewrite !length_app, (Hwf r Hr). done.
    + set_solver.
    + set_solver.
    + unfold F64.getitem. simpl. rewrite index_of_app_fresh by done. simpl. f_equal.
      apply fmap_zip_with_r; [done|]. intros r v Hr. simpl.
      rewrite nth_lookup, <- (Hwf r Hr), lookup_app_r, Nat.sub_diag by done. done.
    + intros c Hc Hin. unfold F64.getitem. simpl.
      destruct (index_of_elem _ _ Hin) as [j Hj].
      rewrite Hj, (index_of_app_l _ _ _ _ Hj). simpl.
      f_equal. apply fmap_zip_with_l; [done|]. intros r v Hr. simpl.
      rewrite !nth_lookup, lookup_app_l; [done|].
      rewrite (Hwf r Hr). apply index_of_Some in Hj. by eapply lookup_lt_Some.
    + apply fmap_zip_with_l; done.
Qed.

Lemma F64_setitem_returns (name : string) (vals : list float) (f : F64.Frame) :
  length vals = length (F64.rows f) -> is_Some (F64.setitem name vals f).
Proof.
  intros Hlen. unfold F64.setitem. rewrite decide_True by done.
  destruct (index_of name (F64.columns f)); eauto.
Qed.

(** Lines 25 and 26: afterwards the frame has the column. *)
Lemma F64_ensure (name : string) (v : float) (f : F64.Frame) :
  F64.frame_wf f ->
  exists f',
    (if decide (name ∈ F64.columns f) then Some f else F64.setitem_scalar name v f)
    = Some f'
    /\ F64.frame_wf f'
    /\ name ∈ F64.columns f'
    /\ (forall c, c ∈ F64.columns f -> c ∈ F64.columns f')
    /\ fst <$> F64.rows f' = fst <$> F64.rows f.
Proof.
  intros Hwf. destruct (decide (name ∈ F64.columns f)) as [Hin|Hnew]; [by exists f|].
  unfold F64.setitem_scalar.
  destruct (F64_setitem_returns name (replicate (length (F64.rows f)) v) f)
    as [f' Hf']; [apply length_replicate|].
  exists f'. split; [done|].
  destruct (F64_setitem_spec _ _ _ _ Hwf Hf') as (? & ? & ? & _ & _ & ?). done.
Qed.

Lemma F64_unstack_wf (fill : float) (s : list ((Date * string) * float)) :
  F64.frame_wf (F64.unstack fill s).
Proof.
  unfold F64.frame_wf, F64.unstack. simpl. rewrite Forall_fmap.
  apply Forall_forall. intros m _. simpl. apply length_fmap.
Qed.

Lemma F64_sort_index_wf (f : F64.Frame) : F64.frame_wf f -> F64.frame_wf (F64.sort_index f).
Proof.
  unfold F64.frame_wf, F64.sort_index. simpl. by rewrite stable_sort_Permutation.
Qed.

(** The index of the frame [unstack] builds: the months of the group keys. *)
Lemma F64_unstack_index (agg_sum : list float -> float) (df : list F64.Row) (m : Date) :
  m ∈ fst <$> F64.rows
                (F64.unstack 0%float
                   (F64.groupby_sum agg_sum month_type_leb F64.month_type_key df))
  <-> exists r, r ∈ df /\ F64.month r = Some m.
Proof.
  unfold F64.unstack. simpl. rewrite <- list_fmap_compose.
  change (fst ∘ _) with (@id Date). rewrite list_fmap_id.
  rewrite elem_of_stable_sort, elem_of_remove_dups, list_elem_of_fmap.
  unfold F64.groupby_sum, F64.group_keys. split.
  - intros (e & -> & He). apply list_elem_of_fmap in He as (k & -> & Hk).
    rewrite elem_of_stable_sort, elem_of_remove_dups, list_elem_of_omap in Hk.
    destruct Hk as (r & Hr & Hkey). exists r. split; [done|].
    unfold F64.month_type_key in Hkey.
    destruct (F64.month r) as [m'|]; simpl in *; [|done]. by injection Hkey as <-.
  - intros (r & Hr & Hm).
    eexists ((m, F64.type r), _). split; [done|].
    apply list_elem_of_fmap. exists (m, F64.type r). split; [done|].
    rewrite elem_of_stable_sort, elem_of_remove_dups, list_elem_of_omap.
    exists r. split; [done|]. unfold F64.month_type_key. by rewrite Hm.
Qed.

Lemma F64_unstack_index_NoDup (fill : float) (s : list ((Date * string) * float)) :
  NoDup (fst <$> F64.rows (F64.unstack fill s)).
Proof.
  unfold F64.unstack. simpl. rewrite <- list_fmap_compose.
  change (fst ∘ _) with (@id Date). rewrite list_fmap_id.
  rewrite stable_sort_Permutation. apply NoDup_remove_dups.
Qed.

(** What [monthly_trends] returns, whatever the rows and however the
    library adds up a group. *)
Lemma F64_monthly_trends_spec (agg_sum : list float -> float) (df : list F64.Row) :
  exists f income expense,
    F64.monthly_trends agg_sum df = Some f
    /\ F64.frame_wf f
    /\ F64.getitem "income" f = Some income
    /\ F64.getitem "expense" f = Some expense
    /\ F64.getitem "net" f = Some (zip_with PrimFloat.add income expense)
    /\ length income = length (F64.rows f)
    /\ length expense = length (F64.rows f)
    /\ NoDup (fst <$> F64.rows f)
    /\ forall m, m ∈ fst <$> F64.rows f <-> exists r, r ∈ df /\ F64.month r = Some m.
Proof.
  unfold F64.monthly_trends.
  pose proof (F64_unstack_index agg_sum df) as Hmonths.
  pose proof (F64_unstack_index_NoDup 0%float
                (F64.groupby_sum agg_sum month_type_leb F64.month_type_key df)) as Hnd.
  destruct (F64_ensure "income" 0%float _
              (F64_unstack_wf 0%float
                 (F64.groupby_sum agg_sum month_type_leb F64.month_type_key df)))
    as (m1 & -> & Hwf1 & Hin1 & Hsub1 & Hidx1).
  cbn [mbind option_bind].
  destruct (F64_ensure "expense" 0%float m1 Hwf1)
    as (m2 & -> & Hwf2 & Hin2 & Hsub2 & Hidx2).
  cbn [mbind option_bind].
  pose proof (F64_sort_index_wf m2 Hwf2) as Hwf3.
  destruct (F64_getitem_elem "income" (F64.sort_index m2)) as [income Hinc];
    [by apply Hsub2|].
  destruct (F64_getitem_elem "expense" (F64.sort_index m2)) as [expense Hexp]; [done|].
  rewrite Hinc, Hexp. cbn [mbind option_bind].
  pose proof (F64_getitem_length _ _ _ Hinc) as Hli.
  pose proof (F64_getitem_length _ _ _ Hexp) as Hle.
  destruct (F64_setitem_returns "net" (zip_with PrimFloat.add income expense)
              (F64.sort_index m2)) as [f Hf].
  { rewrite length_zip_with. lia. }
  destruct (F64_setitem_spec _ _ _ _ Hwf3 Hf) as (Hwf & _ & _ & Hnet & Hother & Hidx).
  assert (Hrows : length (F64.rows f) = length (F64.rows (F64.sort_index m2))).
  { by rewrite <- (length_fmap fst (F64.rows f)), Hidx, length_fmap. }
  assert (Hperm : fst <$> F64.rows f
                  ≡ₚ fst <$> F64.rows
                       (F64.unstack 0%float
                          (F64.groupby_sum agg_sum month_type_leb F64.month_type_key df))).
  { rewrite Hidx. unfold F64.sort_index. simpl.
    by rewrite stable_sort_Permutation, Hidx2, Hidx1. }
  exists f, income, expense. split; [done|]. split; [done|].
  split; [rewrite Hother; [done|done|by apply Hsub2]|].
  split; [rewrite Hother; done|].
  split; [done|]. split; [lia|]. split; [lia|].
  split; [by rewrite Hperm|].
  intros m. by rewrite Hperm.
Qed.

(** C2, as amended.  The frame [monthly_trends] returns has one row for every
    month of the table, and in every one of them [net = income + expense],
    one binary64 addition of the two values of the month (the expense is
    stored signed and added, nothing is subtracted);
    and the totals of the report are the sums of the three columns, so that
    the total of [net] is the sum over the months of [income + expense]. *)
Theorem net_identity (agg_sum series_sum : list float -> float) (df : list F64.Row) :
  exists f income expense net t,
    F64.monthly_trends agg_sum df = Some f
    /\ F64.getitem "income" f = Some income
    /\ F64.getitem "expense" f = Some expense
    /\ F64.getitem "net" f = Some net
    /\ NoDup (fst <$> F64.rows f)
    /\ (forall m, m ∈ fst <$> F64.rows f <-> exists r, r ∈ df /\ F64.month r = Some m)
    /\ (forall i row, F64.rows f !! i = Some row ->
          exists x y,
            F64.row_value f "income" row = Some x
            /\ F64.row_value f "expense" row = Some y
            /\ F64.row_value f "net" row = Some (PrimFloat.add x y)
            /\ income !! i = Some x /\ expense !! i = Some y
            /\ net !! i = Some (PrimFloat.add x y))
    /\ F64.totals series_sum f = Some t
    /\ F64.total_income t = F64.sum series_sum income
    /\ F64.total_expense t = F64.sum series_sum expense
    /\ F64.total_net t = F64.sum series_sum (zip_with PrimFloat.add income expense).
Proof.
  destruct (F64_monthly_trends_spec agg_sum df)
    as (f & income & expense & Hf & Hwf & Hinc & Hexp & Hnet & Hli & Hle & Hnd & Hidx).
  exists f, income, expense, (zip_with PrimFloat.add income expense).
  eexists. split; [done|]. split; [done|]. split; [done|]. split; [done|].
  split; [done|]. split; [done|].
  split; [|unfold F64.totals; rewrite Hinc, Hexp, Hnet; done].
  intros i row Hrow.
  destruct (F64_row_value _ _ _ _ _ Hwf Hinc Hrow) as (x & Hx & Hix).
  destruct (F64_row_value _ _ _ _ _ Hwf Hexp Hrow) as (y & Hy & Hiy).
  destruct (F64_row_value _ _ _ _ _ Hwf Hnet Hrow) as (z & Hz & Hiz).
  exists x, y.
  assert (z = PrimFloat.add x y) as ->.
  { rewrite lookup_zip_with, Hix, Hiy in Hiz. simpl in Hiz. congruence. }
  done.
Qed.

(** The failure of C2 as stated.  On [rounding_table] the [income] column is
    0.1, 0.2, the [expense] column -0.3, 0 and the [net] column
    -0.19999999999999998, 0.2: the total of [net] is not the total of
    [income] plus the total of [expense].  Every sum here has at most two
    terms, so every order of summation gives these numbers. *)
Lemma totals_identity_counterexample :
  exists f t,
    F64.validated rounding_table
    /\ F64.monthly_trends F64.seq_sum rounding_table = Some f
    /\ F64.getitem "income" f = Some [0.1%float; 0.2%float]
    /\ F64.getitem "expense" f = Some [(-0.3)%float; 0%float]
    /\ F64.getitem "net" f = Some [(-0.19999999999999998)%float; 0.2%float]
    /\ F64.totals F64.seq_sum f = Some t
    /\ F64.total_income t = 0.30000000000000004%float
    /\ F64.total_expense t = (-0.3)%float
    /\ F64.total_net t = 2.7755575615628914e-17%float
    /\ PrimFloat.add (F64.total_income t) (F64.total_expense t)
       = 5.551115123125783e-17%float
    /\ PrimFloat.eqb (F64.total_net t)
         (PrimFloat.add (F64.total_income t) (F64.total_expense t)) = false.
Proof.
  eexists _, _. split; [repeat constructor|].
  split; [vm_compute; reflexivity|].
  repeat split; vm_compute; reflexivity.
Qed.

(** ** The cumulative series *)

Lemma F64_cumsum_from_length (acc : float) (l : list float) :
  length (F64.cumsum_from acc l) = length l.
Proof. revert acc. induction l as [|x l IH]; intros acc; simpl; [done|]. by rewrite IH. Qed.

Lemma F64_cumsum_from_lookup (l : list float) (acc : float) (i : nat) :
  (i < length l)%nat ->
  F64.cumsum_from acc l !! i = Some (fold_left PrimFloat.add (take (S i) l) acc).
Proof.
  revert acc i. induction l as [|x l IH]; intros acc i Hi; simpl in *; [lia|].
  destruct i as [|i]; simpl; [done|]. apply IH. lia.
Qed.

(** Without missing values the cumulative series is the list of running
    sums. *)
Lemma F64_cumsum_notna (x : float) (l : list float) :
  Forall (fun a => F64.notna a) (x :: l) ->
  F64.cumsum (x :: l) = x :: F64.cumsum_from x l.
Proof.
  intros Hall.
  assert (Hfill : forall k, Forall (fun a => F64.notna a) k -> F64.fillna0 <$> k = k).
  { intros k Hk. induction Hk as [|a k Ha _ IH]; [done|].
    rewrite fmap_cons, IH. f_equal. unfold F64.fillna0, F64.notna in *.
    by destruct (PrimFloat.is_nan a). }
  unfold F64.cumsum. rewrite (Hfill _ Hall).
  assert (Hzip : forall k c, Forall (fun a => F64.notna a) k -> length c = length k ->
            zip_with (fun a s => if PrimFloat.is_nan a then a else s) k c = c).
  { intros k c Hk. revert c. induction Hk as [|a k Ha _ IH]; intros [|s c] Hlen;
      simpl in *; try done.
    rewrite IH by lia. unfold F64.notna in Ha. by destruct (PrimFloat.is_nan a). }
  apply Hzip; [done|]. simpl. by rewrite F64_cumsum_from_length.
Qed.

(** C7, as amended.  The cumulative net series is the running sum of the
    [net] column added up from the first month on, one binary64 addition per
    month: its entry [i] is the sum of the first [i + 1] values of [net]
    taken in order, it starts with the first value of [net], and every later
    entry is the entry before plus the value of [net] at that place. *)
Theorem cumulative_sum (m : F64.Frame) (net : list float) :
  F64.getitem "net" m = Some net ->
  Forall (fun x => F64.notna x) net ->
  exists cum,
    F64.cum_net m = Some cum
    /\ length cum = length net
    /\ (forall i x, net !! i = Some x ->
          cum !! i = Some (F64.seq_sum (take (S i) net)))
    /\ (forall x, net !! 0%nat = Some x -> cum !! 0%nat = Some x)
    /\ (forall i x, net !! S i = Some x ->
          exists p, cum !! i = Some p /\ cum !! S i = Some (PrimFloat.add p x)).
Proof.
  intros Hn Hall. unfold F64.cum_net. rewrite Hn. cbn [mbind option_bind].
  eexists. split; [done|].
  destruct net as [|y net]; [done|].
  rewrite (F64_cumsum_notna _ _ Hall).
  assert (Hlook : forall i x, (y :: net) !! i = Some x ->
            (y :: F64.cumsum_from y net) !! i = Some (F64.seq_sum (take (S i) (y :: net)))).
  { intros [|i] x Hx; [done|]. simpl in Hx. apply lookup_lt_Some in Hx.
    simpl. by apply F64_cumsum_from_lookup. }
  split; [simpl; by rewrite F64_cumsum_from_length|]. split; [exact Hlook|]. split.
  - by intros x [= <-].
  - intros i x Hx.
    destruct (lookup_lt_is_Some_2 (y :: net) i) as [z Hz].
    { apply lookup_lt_Some in Hx. lia. }
    exists (F64.seq_sum (take (S i) (y :: net))).
    split; [by eapply Hlook|]. rewrite (Hlook _ _ Hx). f_equal.
    rewrite (take_S_r (y :: net) (S i) x Hx). simpl.
    by rewrite fold_left_app.
Qed.

(** The failure of C7 as stated.  The [net] column of [savings_table] is
    0.1, 0.2 and its cumulative series 0.1, 0.30000000000000004: the second
    entry is the first plus 0.2, and the difference of the two entries is
    0.20000000000000004, not 0.2. *)
Lemma cumulative_difference_counterexample :
  exists f net cum,
    F64.validated savings_table
    /\ F64.monthly_trends F64.seq_sum savings_table = Some f
    /\ F64.getitem "net" f = Some net
    /\ net = [0.1%float; 0.2%float]
    /\ F64.cum_net f = Some cum
    /\ cum = [0.1%float; 0.30000000000000004%float]
    /\ exists p c x,
         cum !! 0%nat = Some p /\ cum !! 1%nat = Some c /\ net !! 1%nat = Some x
         /\ c = PrimFloat.add p x
         /\ PrimFloat.sub c p = 0.20000000000000004%float
         /\ PrimFloat.eqb (PrimFloat.sub c p) x = false.
Proof.
  eexists _, _, _. split; [repeat constructor|].
  split; [vm_compute; reflexivity|].
  split; [vm_compute; reflexivity|]. split; [reflexivity|].
  split; [vm_compute; reflexivity|]. split; [reflexivity|].
  eexists _, _, _. repeat split; vm_compute; reflexivity.
Qed.

Lemma cumulative_sum_witness :
  F64.getitem "net" savings_monthly = Some [0.1%float; 0.2%float]
  /\ Forall (fun x => F64.notna x) [0.1%float; 0.2%float]
  /\ exists cum,
       F64.cum_net savings_monthly = Some cum
       /\ length cum = 2%nat
       /\ (forall i x, [0.1%float; 0.2%float] !! i = Some x ->
             cum !! i = Some (F64.seq_sum (take (S i) [0.1%float; 0.2%float])))
       /\ (forall x, [0.1%float; 0.2%float] !! 0%nat = Some x -> cum !! 0%nat = Some x)
       /\ (forall i x, [0.1%float; 0.2%float] !! S i = Some x ->
             exists p, cum !! i = Some p /\ cum !! S i = Some (PrimFloat.add p x)).
Proof.
  assert (Hn : F64.getitem "net" savings_monthly = Some [0.1%float; 0.2%float])
    by reflexivity.
  assert (Hall : Forall (fun x => F64.notna x) [0.1%float; 0.2%float])
    by (repeat constructor).
  split; [exact Hn|]. split; [exact Hall|].
  exact (cumulative_sum savings_monthly _ Hn Hall).
Defined.

(** ** The two totals of the expenses *)

(** Rounding alone separates the total of the category series from the total
    of the [expense] column.  In [spending_table] every expense has a
    category and a date; the category series is Food -0.5, Rent -0.1 and the
    [expense] column -0.2, -0.4, and the two totals differ in the last
    place. *)
Lemma category_sum_rounding :
  exists f expense,
    F64.validated spending_table
    /\ Forall (fun r => F64.category r <> NaN /\ is_Some (F64.month r)) spending_table
    /\ F64.category_breakdown F64.seq_sum spending_table
       = [(Text "Food", (-0.5)%float); (Text "Rent", (-0.1)%float)]
    /\ F64.monthly_trends F64.seq_sum spending_table = Some f
    /\ F64.getitem "expense" f = Some expense
    /\ expense = [(-0.2)%float; (-0.4)%float]
    /\ F64.sum F64.seq_sum (snd <$> F64.category_breakdown F64.seq_sum spending_table)
       = (-0.6)%float
    /\ F64.sum F64.seq_sum expense = (-0.6000000000000001)%float.
Proof.
  eexists _, _. split; [repeat constructor|].
  split; [repeat constructor; eauto|].
  split; [vm_compute; reflexivity|].
  split; [vm_compute; reflexivity|].
  split; [vm_compute; reflexivity|].
  repeat split; vm_compute; reflexivity.
Qed.
